(** * Kubernetes Job resource and schema validators: a shallow embedding

    Sources embedded here:
    - [vendor/github.com/hashicorp/terraform/helper/validation/validation.go]
      (module [Validation]);
    - [kubernetes/resource_kubernetes_job.go] (module [JobResource]).

    Go values of static type [interface{}] are modelled by the inductive
    [value]; a Go function that may panic returns an [outcome]; Go [error]
    values are modelled by their kind and message. *)

From Stdlib Require Import ZArith String Ascii List DecimalString Lia.
From stdpp Require Import base option list strings gmap.
From Equations Require Import Equations.

Set Warnings "-register-all".
Local Open Scope Z_scope.

(** ** Go runtime values *)

(** A dynamically typed Go value ([interface{}]), as the schema framework
    hands it to a validator. *)
Inductive value : Type :=
| VNil
| VBool (b : bool)
| VInt (n : Z)
| VString (s : string)
| VList (l : list value)
| VMap (m : list (string * value)).

(** The result of running a Go function: it returns, or it panics (failed
    type assertion, nil dereference). *)
Inductive outcome (A : Type) : Type :=
| Returned (a : A)
| Panicked.
Arguments Returned {A} a.
Arguments Panicked {A}.

Definition obind {A B} (m : outcome A) (f : A -> outcome B) : outcome B :=
  match m with
  | Returned a => f a
  | Panicked => Panicked
  end.

(** [fmt]'s [%d] verb on an [int]. *)
Definition itoa (n : Z) : string := NilZero.string_of_int (Z.to_int n).

(** [len(s)] of a Go string: its number of bytes. *)
Definition len (s : string) : Z := Z.of_nat (String.length s).

(** [s[n:]]. *)
Fixpoint string_drop (n : nat) (s : string) : string :=
  match n, s with
  | O, _ => s
  | S n', String _ s' => string_drop n' s'
  | S _, EmptyString => EmptyString
  end.

(** [fmt]'s [%v] verb on a [[]string]: the elements separated by one space,
    in square brackets. *)
Fixpoint join_space (l : list string) : string :=
  match l with
  | [] => ""
  | [x] => x
  | x :: r => x +:+ " " +:+ join_space r
  end.

Definition fmt_strings (l : list string) : string := "[" +:+ join_space l +:+ "]".

(** Go [error] values, by dynamic type: a [*errors.StatusError] of the
    Kubernetes API machinery with its [ErrStatus.Code], or any other error,
    known by its message ([fmt.Errorf] builds these).  [DeleteTimeout] is
    the error kind with which the retry primitive gives up at its deadline
    (see [JobResource.Retry]). *)
Inductive error : Type :=
| StatusError (code : Z) (msg : string)
| ErrorString (msg : string)
| DeleteTimeout.

Definition Errorf (msg : string) : error := ErrorString msg.

(** Functions of the Go standard library that the embedded code calls and
    whose results no property below depends on; they stay abstract. *)
Class GoStd : Type := {
  (** [strconv.Quote], which [fmt]'s [%q] verb applies to a string *)
  Quote : string -> string;
  (** [strings.ToLower] *)
  ToLower : string -> string;
  (** [regexp.Compile]: the error message when the pattern does not compile *)
  regexpCompile : string -> option string;
  (** the IPv6 branch of [net.ParseCIDR] *)
  parseIPv6 : string -> option (list Z);
  (** the IPv6 text form of a 16-byte address *)
  ipv6String : list Z -> string;
  (** the hexadecimal form of a byte slice *)
  hexString : list Z -> string
}.

(** ** The Go standard library's [net] package, as far as [ParseCIDR] and
    [IPNet.String] need it.  Addresses and masks are byte slices; the nil
    slice is the empty list. *)
Module Net.

Definition IPv4len : Z := 4.
Definition IPv6len : Z := 16.
Definition big : Z := 16777215.

Definition is_digit (c : ascii) : bool :=
  let n := Z.of_nat (nat_of_ascii c) in (48 <=? n) && (n <=? 57).

(** [dtoi]: decimal to integer.  Returns the number, the count of characters
    consumed and a success flag. *)
Fixpoint dtoi_loop (s : string) (n : Z) (i : nat) : Z * nat * bool :=
  match s with
  | String c s' =>
      if is_digit c then
        let n' := n * 10 + (Z.of_nat (nat_of_ascii c) - 48) in
        if n' >=? big then (big, i, false) else dtoi_loop s' n' (S i)
      else if Nat.eqb i 0 then (0, 0%nat, false) else (n, i, true)
  | EmptyString => if Nat.eqb i 0 then (0, 0%nat, false) else (n, i, true)
  end.

Definition dtoi (s : string) : Z * nat * bool := dtoi_loop s 0 0%nat.

Definition v4InV6Prefix : list Z := [0; 0; 0; 0; 0; 0; 0; 0; 0; 0; 255; 255].

(** [IPv4(a, b, c, d)]: the 16-byte form of an IPv4 address. *)
Definition IPv4 (p : list Z) : list Z := v4InV6Prefix ++ p.

(** The loop of [parseIPv4]: [todo] octets are still to be read; [first]
    tells whether this is octet 0 (no leading dot). *)
Fixpoint parseIPv4_loop (todo : nat) (first : bool) (s : string) : option (list Z) :=
  match todo with
  | O => if len s =? 0 then Some [] else None
  | S todo' =>
      if len s =? 0 then None
      else
        let s1 :=
          if first then Some s
          else match s with
               | String c r => if Ascii.eqb c "."%char then Some r else None
               | EmptyString => None
               end in
        match s1 with
        | None => None
        | Some s1 =>
            let '(n, c, ok) := dtoi s1 in
            if negb ok || (n >? 255) then None
            else cons n <$> parseIPv4_loop todo' false (string_drop c s1)
        end
  end.

Definition parseIPv4 (s : string) : option (list Z) :=
  IPv4 <$> parseIPv4_loop 4 true s.

(** [CIDRMask(ones, bits)]: [bits/8] bytes whose first [ones] bits are set. *)
Fixpoint CIDRMask_bytes (l : nat) (n : Z) : list Z :=
  match l with
  | O => []
  | S l' =>
      if n >=? 8 then 255 :: CIDRMask_bytes l' (n - 8)
      else Z.land (Z.lnot (Z.shiftr 255 n)) 255 :: CIDRMask_bytes l' 0
  end.

Definition CIDRMask (ones bits : Z) : list Z :=
  if negb ((bits =? 8 * IPv4len) || (bits =? 8 * IPv6len)) then []
  else if (ones <? 0) || (ones >? bits) then []
  else CIDRMask_bytes (Z.to_nat (bits / 8)) ones.

Definition allFF (b : list Z) : bool := forallb (Z.eqb 255) b.
Definition isZeros (b : list Z) : bool := forallb (Z.eqb 0) b.
Definition bytesEqual (a b : list Z) : bool := bool_decide (a = b).

Fixpoint and_bytes (ip mask : list Z) : list Z :=
  match ip, mask with
  | a :: ip', m :: mask' => Z.land a m :: and_bytes ip' mask'
  | _, _ => []
  end.

(** [IP.Mask]. *)
Definition IP_Mask (ip mask : list Z) : list Z :=
  let mask :=
    if (Z.of_nat (length mask) =? IPv6len) && (Z.of_nat (length ip) =? IPv4len)
       && allFF (take 12 mask)
    then drop 12 mask else mask in
  let ip :=
    if (Z.of_nat (length mask) =? IPv4len) && (Z.of_nat (length ip) =? IPv6len)
       && bytesEqual (take 12 ip) v4InV6Prefix
    then drop 12 ip else ip in
  if negb (Nat.eqb (length ip) (length mask)) then []
  else and_bytes ip mask.

(** [IP.To4]. *)
Definition To4 (ip : list Z) : option (list Z) :=
  if Z.of_nat (length ip) =? IPv4len then Some ip
  else if (Z.of_nat (length ip) =? IPv6len) && isZeros (take 10 ip)
          && bool_decide (ip !! 10%nat = Some 255) && bool_decide (ip !! 11%nat = Some 255)
  then Some (drop 12 ip)
  else None.

(** The inner loops of [simpleMaskLength] on the first byte that is not
    [0xff]: count its leading one bits, then require the rest to be zero. *)
Fixpoint leading_ones (fuel : nat) (v : Z) (n : Z) : Z * Z :=
  match fuel with
  | O => (n, v)
  | S fuel' =>
      if negb (Z.land v 128 =? 0)
      then leading_ones fuel' (Z.land (Z.shiftl v 1) 255) (n + 1)
      else (n, v)
  end.

Fixpoint simpleMaskLength_from (mask : list Z) (n : Z) : Z :=
  match mask with
  | [] => n
  | v :: rest =>
      if v =? 255 then simpleMaskLength_from rest (n + 8)
      else
        let '(n', v') := leading_ones 8 v n in
        if negb (v' =? 0) then -1
        else if isZeros rest then n' else -1
  end.

Definition simpleMaskLength (mask : list Z) : Z := simpleMaskLength_from mask 0.

(** [IPMask.Size]. *)
Definition Mask_Size (m : list Z) : Z * Z :=
  let ones := simpleMaskLength m in
  if ones =? -1 then (0, 0) else (ones, Z.of_nat (length m) * 8).

Record IPNet : Type := mkIPNet { IP : list Z; Mask : list Z }.

Section Printing.
Context `{GoStd}.

(** [IP.String]. *)
Definition IP_String (ip : list Z) : string :=
  if Nat.eqb (length ip) 0 then "<nil>"
  else match To4 ip with
       | Some [a; b; c; d] => itoa a +:+ "." +:+ itoa b +:+ "." +:+ itoa c +:+ "." +:+ itoa d
       | _ => if negb (Z.of_nat (length ip) =? IPv6len) then "?" +:+ hexString ip
              else ipv6String ip
       end.

Definition networkNumberAndMask (n : IPNet) : option (list Z * list Z) :=
  let ip := match To4 (IP n) with
            | Some ip4 => Some ip4
            | None => if negb (Z.of_nat (length (IP n)) =? IPv6len) then None else Some (IP n)
            end in
  match ip with
  | None => None
  | Some ip =>
      let m := Mask n in
      if Z.of_nat (length m) =? IPv4len then
        if negb (Z.of_nat (length ip) =? IPv4len) then None else Some (ip, m)
      else if Z.of_nat (length m) =? IPv6len then
        if Z.of_nat (length ip) =? IPv4len then Some (ip, drop 12 m) else Some (ip, m)
      else None
  end.

(** [IPNet.String]. *)
Definition IPNet_String (n : IPNet) : string :=
  match networkNumberAndMask n with
  | None => "<nil>"
  | Some (nn, m) =>
      let l := simpleMaskLength m in
      if l =? -1 then IP_String nn +:+ "/" +:+ hexString m
      else IP_String nn +:+ "/" +:+ itoa l
  end.

(** [bytealg.IndexByteString]. *)
Fixpoint IndexByteString (s : string) (c : ascii) : option nat :=
  match s with
  | EmptyString => None
  | String c' s' => if Ascii.eqb c' c then Some 0%nat else S <$> IndexByteString s' c
  end.

(** [ParseError.Error] for a CIDR address. *)
Definition ParseError (text : string) : string := "invalid CIDR address: " +:+ text.

(** [ParseCIDR]: the address, the network, or the error message. *)
Definition ParseCIDR (s : string) : (list Z * IPNet) + string :=
  match IndexByteString s "/"%char with
  | None => inr (ParseError s)
  | Some i =>
      let addr := substring 0 i s in
      let mask := string_drop (S i) s in
      let '(iplen, ip) :=
        match parseIPv4 addr with
        | Some ip => (IPv4len, Some ip)
        | None => (IPv6len, parseIPv6 addr)
        end in
      let '(n, j, ok) := dtoi mask in
      match ip with
      | None => inr (ParseError s)
      | Some ip =>
          if negb ok || negb (Z.of_nat j =? len mask) || (n <? 0) || (n >? 8 * iplen)
          then inr (ParseError s)
          else
            let m := CIDRMask n (8 * iplen) in
            inl (ip, mkIPNet (IP_Mask ip m) m)
      end
  end.
End Printing.

End Net.

(** ** [helper/validation]: the schema validators *)
Module Validation.

(** [structure.NormalizeJsonString] lives in a package whose source is not
    part of this development; it receives the raw [interface{}] value and
    yields the normalized text together with the parse error, if any. *)
Class Structure : Type := {
  NormalizeJsonString : value -> outcome (string * option string)
}.

(** A validator returns warnings and errors. *)
Definition SchemaValidateFunc : Type :=
  value -> string -> outcome (list string * list error).

Section Validators.
Context `{GoStd} `{Structure}.

Definition IntBetween (min max : Z) : SchemaValidateFunc := fun i k =>
  match i with
  | VInt v =>
      if (v <? min) || (v >? max) then
        Returned ([], [Errorf ("expected " +:+ k +:+ " to be in the range (" +:+ itoa min
                               +:+ " - " +:+ itoa max +:+ "), got " +:+ itoa v)])
      else Returned ([], [])
  | _ => Returned ([], [Errorf ("expected type of " +:+ k +:+ " to be int")])
  end.

Definition IntAtLeast (min : Z) : SchemaValidateFunc := fun i k =>
  match i with
  | VInt v =>
      if v <? min then
        Returned ([], [Errorf ("expected " +:+ k +:+ " to be at least (" +:+ itoa min
                               +:+ "), got " +:+ itoa v)])
      else Returned ([], [])
  | _ => Returned ([], [Errorf ("expected type of " +:+ k +:+ " to be int")])
  end.

Definition IntAtMost (max : Z) : SchemaValidateFunc := fun i k =>
  match i with
  | VInt v =>
      if v >? max then
        Returned ([], [Errorf ("expected " +:+ k +:+ " to be at most (" +:+ itoa max
                               +:+ "), got " +:+ itoa v)])
      else Returned ([], [])
  | _ => Returned ([], [Errorf ("expected type of " +:+ k +:+ " to be int")])
  end.

Definition StringInSlice (valid : list string) (ignoreCase : bool) : SchemaValidateFunc :=
  fun i k =>
  match i with
  | VString v =>
      if existsb (fun str => String.eqb v str
                             || (ignoreCase && String.eqb (ToLower v) (ToLower str))) valid
      then Returned ([], [])
      else Returned ([], [Errorf ("expected " +:+ k +:+ " to be one of " +:+ fmt_strings valid
                                  +:+ ", got " +:+ v)])
  | _ => Returned ([], [Errorf ("expected type of " +:+ k +:+ " to be string")])
  end.

Definition StringLenBetween (min max : Z) : SchemaValidateFunc := fun i k =>
  match i with
  | VString v =>
      if (len v <? min) || (len v >? max) then
        Returned ([], [Errorf ("expected length of " +:+ k +:+ " to be in the range ("
                               +:+ itoa min +:+ " - " +:+ itoa max +:+ "), got " +:+ v)])
      else Returned ([], [])
  | _ => Returned ([], [Errorf ("expected type of " +:+ k +:+ " to be string")])
  end.

(** The two messages of [CIDRNetwork] after a successful parse. *)
Definition cidr_canonical_msg (k canonical v : string) : string :=
  "expected " +:+ k +:+ " to contain a valid network CIDR, expected " +:+ canonical
  +:+ ", got " +:+ v.

Definition cidr_sigbits_msg (k : string) (min max sigbits : Z) : string :=
  "expected " +:+ Quote k +:+ " to contain a network CIDR with between " +:+ itoa min
  +:+ " and " +:+ itoa max +:+ " significant bits, got: " +:+ itoa sigbits.

(** [net.ParseCIDR] never returns a nil network together with a nil error,
    so the [ipnet == nil] disjunct of the source is not reachable here. *)
Definition CIDRNetwork (min max : Z) : SchemaValidateFunc := fun i k =>
  match i with
  | VString v =>
      match Net.ParseCIDR v with
      | inr err =>
          Returned ([], [Errorf ("expected " +:+ k +:+ " to contain a valid CIDR, got: " +:+ v
                                 +:+ " with err: " +:+ err)])
      | inl (_, ipnet) =>
          let es :=
            if negb (String.eqb v (Net.IPNet_String ipnet))
            then [Errorf (cidr_canonical_msg k (Net.IPNet_String ipnet) v)]
            else [] in
          let '(sigbits, _) := Net.Mask_Size (Net.Mask ipnet) in
          let es :=
            if (sigbits <? min) || (sigbits >? max)
            then es ++ [Errorf (cidr_sigbits_msg k min max sigbits)]
            else es in
          Returned ([], es)
      end
  | _ => Returned ([], [Errorf ("expected type of " +:+ k +:+ " to be string")])
  end.

Definition ValidateJsonString : SchemaValidateFunc := fun v k =>
  obind (NormalizeJsonString v) (fun '(_, err) =>
    match err with
    | Some e => Returned ([], [Errorf (Quote k +:+ " contains an invalid JSON: " +:+ e)])
    | None => Returned ([], [])
    end).

(** The unchecked type assertion [v.(string)]. *)
Definition assertString (v : value) : outcome string :=
  match v with
  | VString s => Returned s
  | _ => Panicked
  end.

(** The unchecked type assertion [v.([]interface{})]. *)
Definition assertList (v : value) : outcome (list value) :=
  match v with
  | VList l => Returned l
  | _ => Panicked
  end.

Definition duplicate_msg (k s : string) : string :=
  Quote k +:+ ": duplicate entry - " +:+ s.

(** The inner loop of [ValidateListUniqueStrings]: [rest] is what remains of
    the list, [n2] the index of its head. *)
Fixpoint unique_inner (k : string) (n1 : nat) (v1 : value)
    (rest : list value) (n2 : nat) (errors : list error) : outcome (list error) :=
  match rest with
  | [] => Returned errors
  | v2 :: rest' =>
      obind (assertString v1) (fun s1 =>
      obind (assertString v2) (fun s2 =>
        let errors :=
          if String.eqb s1 s2 && negb (Nat.eqb n1 n2)
          then errors ++ [Errorf (duplicate_msg k s1)]
          else errors in
        unique_inner k n1 v1 rest' (S n2) errors))
  end.

(** The outer loop: [whole] is the list both loops range over. *)
Fixpoint unique_outer (k : string) (whole rest : list value) (n1 : nat)
    (errors : list error) : outcome (list error) :=
  match rest with
  | [] => Returned errors
  | v1 :: rest' =>
      obind (unique_inner k n1 v1 whole 0 errors) (fun errors =>
        unique_outer k whole rest' (S n1) errors)
  end.

Definition ValidateListUniqueStrings : SchemaValidateFunc := fun v k =>
  obind (assertList v) (fun l =>
  obind (unique_outer k l l 0 []) (fun errors =>
    Returned ([], errors))).

Definition ValidateRegexp : SchemaValidateFunc := fun v k =>
  obind (assertString v) (fun s =>
    match regexpCompile s with
    | Some e => Returned ([], [Errorf (Quote k +:+ ": " +:+ e)])
    | None => Returned ([], [])
    end).

End Validators.
End Validation.

(** ** [kubernetes/resource_kubernetes_job.go]: the Job resource *)
Module JobResource.

(** *** API objects ([metav1], [batchv1]), restricted to the fields the
    resource functions read or write themselves.  A Go map is a [gmap]; a
    nil map reads as the empty map and [delete] on it does nothing. *)
Record metav1_ObjectMeta : Type := mkObjectMeta {
  Name : string;
  Namespace : string;
  Labels : gmap string string;
  Annotations : gmap string string
}.

Record metav1_LabelSelector : Type := mkLabelSelector {
  MatchLabels : gmap string string
}.

(** [Selector] is a pointer in Go: [None] is nil. *)
Record batchv1_JobSpec : Type := mkJobSpec {
  Parallelism : option Z;
  Completions : option Z;
  Selector : option metav1_LabelSelector;
  ManualSelector : option bool
}.

Record batchv1_Job : Type := mkJob {
  ObjectMeta : metav1_ObjectMeta;
  Spec : batchv1_JobSpec
}.

(** Modelled from the spec: the patch-operation type is declared in a file
    that is not part of the sources.  A ChangeSet is an ordered sequence of
    add, replace and remove operations at a JSON-pointer path. *)
Inductive PatchOperation : Type :=
| AddOperation (path : string) (v : value)
| ReplaceOperation (path : string) (v : value)
| RemoveOperation (path : string).

Definition PatchOperations : Type := list PatchOperation.

(** Modelled from the spec: [schema.ResourceData] belongs to the external
    configuration framework.  It carries the lifecycle identifier, the
    user's configuration (a flat map from dotted field paths to values), the
    framework's "has this field changed" answers and the state written back
    by [Set]. *)
Record ResourceData : Type := mkResourceData {
  id : string;
  config : gmap string value;
  changes : string -> bool;
  attrs : gmap string value
}.

Definition Id (d : ResourceData) : string := id d.
Definition HasChange (d : ResourceData) (key : string) : bool := changes d key.

Definition SetId (v : string) (d : ResourceData) : ResourceData :=
  mkResourceData v (config d) (changes d) (attrs d).

(** The zero value of each dynamic type. *)
Definition isZero (v : value) : bool :=
  match v with
  | VNil => true
  | VBool b => negb b
  | VInt n => n =? 0
  | VString s => String.eqb s ""
  | VList l => match l with [] => true | _ => false end
  | VMap m => match m with [] => true | _ => false end
  end.

(** Modelled from the spec: [GetOk] reports [ok] only for a key the user
    has set to a non-zero value; for [manual_selector] (a boolean that
    defaults to false) this is "the user has opted into manual control". *)
Definition GetOk (d : ResourceData) (key : string) : value * bool :=
  match config d !! key with
  | Some v => (v, negb (isZero v))
  | None => (VNil, false)
  end.

(** *** The remote API.  The cluster answers each call; what it answers may
    depend on everything that happened before, which the number of earlier
    remote calls of this invocation stands for. *)
Inductive Call : Type :=
| CallGet (namespace name : string)
| CallDelete (namespace name : string)
| CallPatch (namespace name : string) (data : string).

Record Clientset : Type := mkClientset {
  Jobs_Get : nat -> string -> string -> batchv1_Job + error;
  Jobs_Delete : nat -> string -> string -> option error;
  Jobs_Patch : nat -> string -> string -> string -> batchv1_Job + error
}.

(** Helpers of the provider that are defined outside the two source files.
    They stay abstract: the properties below hold whatever they compute. *)
Class Helpers : Type := {
  idParts : string -> (string * string) + error;
  buildId : metav1_ObjectMeta -> string;
  patchMetadata : string -> string -> ResourceData -> PatchOperations;
  patchJobSpec : string -> string -> ResourceData -> PatchOperations + error;
  (** [PatchOperations.MarshalJSON]: the document, or the encoder's message *)
  MarshalJSON : PatchOperations -> string + string;
  flattenMetadata : metav1_ObjectMeta -> value;
  flattenJobSpec : batchv1_JobSpec -> value + error;
  (** the schema check [d.Set] runs before it stores a value *)
  setCheck : string -> value -> option error;
  (** the pause after the n-th unsuccessful poll, in milliseconds *)
  backoff : nat -> positive
}.

(** *** State passing.  A resource function works on the resource data it
    was handed (through a pointer) and on the cluster; the remote calls it
    issues are recorded in order. *)
Record State : Type := mkState {
  rd : ResourceData;
  calls : list Call
}.

Definition M (A : Type) : Type := State -> outcome (A * State).

Definition ret {A} (a : A) : M A := fun st => Returned (a, st).

Definition bind {A B} (m : M A) (f : A -> M B) : M B := fun st =>
  match m st with
  | Returned (a, st') => f a st'
  | Panicked => Panicked
  end.

Declare Scope go_scope.
Delimit Scope go_scope with go.
Notation "x <- m ;; k" := (bind m (fun x => k))
  (at level 100, m at next level, right associativity) : go_scope.
Notation "m ;;; k" := (bind m (fun _ => k))
  (at level 100, right associativity) : go_scope.
Local Open Scope go_scope.

Definition getData : M ResourceData := fun st => Returned (rd st, st).

Definition modifyData (f : ResourceData -> ResourceData) : M unit := fun st =>
  Returned (tt, mkState (f (rd st)) (calls st)).

Definition lift {A} (o : outcome A) : M A := fun st =>
  match o with
  | Returned a => Returned (a, st)
  | Panicked => Panicked
  end.

Definition remoteGet (conn : Clientset) (namespace name : string) : M (batchv1_Job + error) :=
  fun st =>
    Returned (Jobs_Get conn (length (calls st)) namespace name,
              mkState (rd st) (calls st ++ [CallGet namespace name])).

Definition remoteDelete (conn : Clientset) (namespace name : string) : M (option error) :=
  fun st =>
    Returned (Jobs_Delete conn (length (calls st)) namespace name,
              mkState (rd st) (calls st ++ [CallDelete namespace name])).

Definition remotePatch (conn : Clientset) (namespace name data : string)
    : M (batchv1_Job + error) :=
  fun st =>
    Returned (Jobs_Patch conn (length (calls st)) namespace name data,
              mkState (rd st) (calls st ++ [CallPatch namespace name data])).

(** The type assertion of [err] to a status error succeeds and its
    [ErrStatus.Code] is 404. *)
Definition isNotFound (err : error) : bool :=
  match err with
  | StatusError code _ => code =? 404
  | _ => false
  end.

(** [resource.RetryError] with its two constructors. *)
Record RetryError : Type := mkRetryError { Err : error; Retryable : bool }.
Definition NonRetryableError (err : error) : RetryError := mkRetryError err false.
Definition RetryableError (err : error) : RetryError := mkRetryError err true.

Definition minute : Z := 60000.

Section Resource.
Context `{Helpers}.

(** [d.Set(key, v)]. *)
Definition dSet (key : string) (v : value) : M (option error) :=
  match setCheck key v with
  | Some err => ret (Some err)
  | None =>
      modifyData (fun d => mkResourceData (id d) (config d) (changes d) (<[key := v]> (attrs d)));;;
      ret None
  end.

(** Modelled from the spec: [resource.Retry] is not part of the sources.
    It polls at once; a nil result ends the loop with success, a
    non-retryable error ends it with that error, and a retryable one makes
    it pause for the backoff and poll again while the overall timeout has
    not elapsed; at the deadline it fails with [DeleteTimeout].  [elapsed]
    is the time spent so far in milliseconds, [attempt] the number of polls
    already made. *)
Equations? Retry_loop (timeout : Z) (f : M (option RetryError)) (elapsed : Z) (attempt : nat)
    (st : State) : outcome (option error * State)
    by wf (Z.to_nat (timeout - elapsed)) lt :=
Retry_loop timeout f elapsed attempt st with f st := {
  | Panicked => Panicked
  | Returned (None, st') => Returned (None, st')
  | Returned (Some rerr, st') with Retryable rerr := {
    | false => Returned (Some (Err rerr), st')
    | true with Z_lt_dec (elapsed + Z.pos (backoff attempt)) timeout := {
      | left _ => Retry_loop timeout f (elapsed + Z.pos (backoff attempt)) (S attempt) st'
      | right _ => Returned (Some DeleteTimeout, st') } } }.
Proof. lia. Qed.

Definition Retry (timeout : Z) (f : M (option RetryError)) : M (option error) :=
  Retry_loop timeout f 0 0.

(** Lines 120-137 of [resourceKubernetesJobRead]: remove the
    server-generated labels unless a manual selector is used.  The maps are
    reached through the job, so the deletions show in the job itself;
    reading [MatchLabels] through a nil [Selector] panics. *)
Definition removeKey (key : string) (labels : gmap string string) : gmap string string :=
  match labels !! key with
  | Some _ => delete key labels
  | None => labels
  end.

Definition removeGeneratedLabels (d : ResourceData) (job : batchv1_Job) : outcome batchv1_Job :=
  if negb (snd (GetOk d "spec.0.manual_selector")) then
    let labels := Labels (ObjectMeta job) in
    let labels := removeKey "controller-uid" labels in
    let labels := removeKey "job-name" labels in
    let meta := mkObjectMeta (Name (ObjectMeta job)) (Namespace (ObjectMeta job)) labels
                             (Annotations (ObjectMeta job)) in
    match Selector (Spec job) with
    | None => Panicked
    | Some sel =>
        let labels := removeKey "controller-uid" (MatchLabels sel) in
        let spec := mkJobSpec (Parallelism (Spec job)) (Completions (Spec job))
                              (Some (mkLabelSelector labels)) (ManualSelector (Spec job)) in
        Returned (mkJob meta spec)
    end
  else Returned job.

(** Lines 139-154 of [resourceKubernetesJobRead]: project the job into
    the resource data. *)
Definition projectJob (job : batchv1_Job) : M (option error) :=
  err <- dSet "metadata" (flattenMetadata (ObjectMeta job));;
  match err with
  | Some err => ret (Some err)
  | None =>
      match flattenJobSpec (Spec job) with
      | inr err => ret (Some err)
      | inl jobSpec =>
          err <- dSet "spec" jobSpec;;
          match err with
          | Some err => ret (Some err)
          | None => ret None
          end
      end
  end.

Definition resourceKubernetesJobRead (conn : Clientset) : M (option error) :=
  d <- getData;;
  match idParts (Id d) with
  | inr err => ret (Some err)
  | inl (namespace, name) =>
      r <- remoteGet conn namespace name;;
      match r with
      | inr err => ret (Some err)
      | inl job =>
          job <- lift (removeGeneratedLabels d job);;
          projectJob job
      end
  end.

(** Lines 77-85 of [resourceKubernetesJobUpdate]: the operations to send. *)
Definition updateOps (d : ResourceData) : PatchOperations + error :=
  let ops := patchMetadata "metadata.0." "/metadata/" d in
  if HasChange d "spec" then
    match patchJobSpec "/spec" "spec.0." d with
    | inr err => inr err
    | inl specOps => inl (ops ++ specOps)
    end
  else inl ops.

Definition resourceKubernetesJobUpdate (conn : Clientset) : M (option error) :=
  d <- getData;;
  match idParts (Id d) with
  | inr err => ret (Some err)
  | inl (namespace, name) =>
      match updateOps d with
      | inr err => ret (Some err)
      | inl ops =>
          match MarshalJSON ops with
          | inr err => ret (Some (Errorf ("Failed to marshal update operations: " +:+ err)))
          | inl data =>
              r <- remotePatch conn namespace name data;;
              match r with
              | inr err => ret (Some err)
              | inl out =>
                  modifyData (SetId (buildId (ObjectMeta out)));;;
                  resourceKubernetesJobRead conn
              end
          end
      end
  end.

(** The function handed to [resource.Retry] by [resourceKubernetesJobDelete]. *)
Definition deletePoll (conn : Clientset) (namespace name : string) : M (option RetryError) :=
  r <- remoteGet conn namespace name;;
  match r with
  | inr err =>
      if isNotFound err then ret None
      else ret (Some (NonRetryableError err))
  | inl _ =>
      ret (Some (RetryableError (Errorf ("Job " +:+ name +:+ " still exists"))))
  end.

Definition resourceKubernetesJobDelete (conn : Clientset) : M (option error) :=
  d <- getData;;
  match idParts (Id d) with
  | inr err => ret (Some err)
  | inl (namespace, name) =>
      err <- remoteDelete conn namespace name;;
      match err with
      | Some err => ret (Some err)
      | None =>
          err <- Retry (1 * minute) (deletePoll conn namespace name);;
          match err with
          | Some err => ret (Some err)
          | None =>
              modifyData (SetId "");;;
              ret None
          end
      end
  end.

Definition resourceKubernetesJobExists (conn : Clientset) : M (bool * option error) :=
  d <- getData;;
  match idParts (Id d) with
  | inr err => ret (false, Some err)
  | inl (namespace, name) =>
      r <- remoteGet conn namespace name;;
      match r with
      | inr err =>
          if isNotFound err then ret (false, None)
          else ret (true, Some err)
      | inl _ => ret (true, None)
      end
  end.

End Resource.
End JobResource.

(** ** Specification-level vocabulary *)

(** Dynamic type tests. *)
Definition isInt (v : value) : bool := match v with VInt _ => true | _ => false end.
Definition isString (v : value) : bool := match v with VString _ => true | _ => false end.

(** A list together with the index of each element, as [range] yields it. *)
Definition indexed {A} (l : list A) : list (nat * A) := zip (seq 0 (length l)) l.

(** The ordered duplicate pairs of a list of strings: every [(i, j, x)] with
    [i <> j] and [x] at both positions, in the order the two loops meet them. *)
Definition duplicatePairs (l : list string) : list (nat * nat * string) :=
  q ← indexed l; p ← indexed l;
  if decide (q.2 = p.2 ∧ q.1 ≠ p.1) then [(q.1, p.1, q.2)] else [].

Module JobTerms.
Import JobResource.
Section Terms.
Context `{Helpers}.

(** The time spent pausing over [k] unsuccessful polls, the first of which
    was poll number [attempt]. *)
Fixpoint waited (attempt k : nat) : Z :=
  match k with
  | O => 0
  | S k' => Z.pos (backoff attempt) + waited (S attempt) k'
  end.

(** The moment poll number [n] of a retry loop is made. *)
Definition pollTime (n : nat) : Z := waited 0 n.

(** What the cluster answers to the [k]-th get from state [st] on, when
    only gets are issued in between. *)
Definition pollOutcome (conn : Clientset) (st : State) (namespace name : string) (k : nat)
    : batchv1_Job + error :=
  Jobs_Get conn (length (calls st) + k) namespace name.

(** The state after [k] further gets. *)
Definition afterGets (st : State) (namespace name : string) (k : nat) : State :=
  mkState (rd st) (calls st ++ replicate k (CallGet namespace name)).

Definition isObject (r : batchv1_Job + error) : bool :=
  match r with inl _ => true | inr _ => false end.

(** What the loop returns once a poll is answered with an error. *)
Definition verdict (err : error) : option error :=
  if isNotFound err then None else Some err.

(** The polls from [st] on confirm the deletion: one of them, due before
    the one-minute deadline, is answered with a 404 status, and every poll
    before it saw the object. *)
Definition confirmedGone (conn : Clientset) (st : State) (namespace name : string) : Prop :=
  ∃ (k : nat) (msg : string),
    (∀ j, (j < k)%nat → isObject (pollOutcome conn st namespace name j) = true)
    ∧ pollOutcome conn st namespace name k = inr (StatusError 404 msg)
    ∧ pollTime k < 1 * minute.

(** A delete invocation from [st] reaches the polling loop and the loop
    confirms the deletion. *)
Definition deletionConfirmed (conn : Clientset) (st : State) : Prop :=
  ∃ namespace name : string,
    idParts (Id (rd st)) = inl (namespace, name)
    ∧ Jobs_Delete conn (length (calls st)) namespace name = None
    ∧ confirmedGone conn (mkState (rd st) (calls st ++ [CallDelete namespace name]))
        namespace name.

(** The user has opted into manual selector control. *)
Definition manualSelectorOptedIn (d : ResourceData) : bool :=
  snd (GetOk d "spec.0.manual_selector").

(** The metadata labels with the two generated labels removed. *)
Definition withoutGeneratedLabels (labels : gmap string string) : gmap string string :=
  delete "job-name" (delete "controller-uid" labels).

End Terms.

(** An instance of the helper interface, clusters and a resource for closed
    examples: every identifier names a job in the namespace [default], the
    framework reports no change, the encoder rejects every document and the
    pause between polls is 500 ms. *)
Definition exampleHelpers : Helpers := {|
  idParts := λ s, inl ("default", s);
  buildId := Name;
  patchMetadata := λ _ _ _, [];
  patchJobSpec := λ _ _ _, inl [];
  MarshalJSON := λ _, inr "json: unsupported value";
  flattenMetadata := λ m, VString (Name m);
  flattenJobSpec := λ _, inl VNil;
  setCheck := λ _ _, None;
  backoff := λ _, 500%positive
|}.

Definition exampleJob (sel : option metav1_LabelSelector) : batchv1_Job :=
  mkJob (mkObjectMeta "pi" "default" ∅ ∅) (mkJobSpec None None sel None).

Definition exampleConn (gets : nat → batchv1_Job + error) (del : option error) : Clientset :=
  mkClientset (λ n _ _, gets n) (λ _ _ _, del) (λ _ _ _ _, inr (ErrorString "conflict")).

(** A cluster on which the job is gone. *)
Definition goneConn : Clientset :=
  exampleConn (λ _, inr (StatusError 404 "jobs.batch pi not found")) None.

(** A cluster on which the job is seen twice more before it is gone. *)
Definition lingeringConn : Clientset :=
  exampleConn (λ n, if (n <? 2)%nat then inl (exampleJob None)
                    else inr (StatusError 404 "jobs.batch pi not found")) None.

(** Clusters that return a job without, and with, a selector. *)
Definition bareJobConn : Clientset := exampleConn (λ _, inl (exampleJob None)) None.
Definition selectorJobConn : Clientset :=
  exampleConn (λ _, inl (exampleJob (Some (mkLabelSelector ∅)))) None.

(** The resource [pi] with an empty configuration. *)
Definition piState : State :=
  mkState (mkResourceData "pi" ∅ (λ _, false) ∅) [].

(** A job as the server returns it for a user who leaves the selector to
    the server: its metadata labels carry the two generated labels next to
    the user's own label [app], and its selector matches on both generated
    labels. *)
Definition labelledJob : batchv1_Job :=
  mkJob
    (mkObjectMeta "pi" "default"
       (<["controller-uid" := "8d5c"]> (<["job-name" := "pi"]> {["app" := "pi"]})) ∅)
    (mkJobSpec None None
       (Some (mkLabelSelector (<["controller-uid" := "8d5c"]> {["job-name" := "pi"]})))
       None).

(** The same job after the label normalization of Read. *)
Definition normalizedLabelledJob : batchv1_Job :=
  mkJob (mkObjectMeta "pi" "default" {["app" := "pi"]} ∅)
        (mkJobSpec None None (Some (mkLabelSelector {["job-name" := "pi"]})) None).

Definition labelledJobConn : Clientset := exampleConn (λ _, inl labelledJob) None.

(** Helpers whose flattened metadata shows the labels, as a list of pairs. *)
Definition labelShowingHelpers : Helpers := {|
  idParts := λ s, inl ("default", s);
  buildId := Name;
  patchMetadata := λ _ _ _, [];
  patchJobSpec := λ _ _ _, inl [];
  MarshalJSON := λ _, inl "[]";
  flattenMetadata := λ m,
    VMap ((λ kv : string * string, (kv.1, VString kv.2)) <$> map_to_list (Labels m));
  flattenJobSpec := λ _, inl VNil;
  setCheck := λ _ _, None;
  backoff := λ _, 500%positive
|}.

End JobTerms.

(** ** Further vocabulary and the create function *)

(** A validator that, whenever it returns, returns no warning. *)
Definition noWarnings (f : Validation.SchemaValidateFunc) : Prop :=
  ∀ v k ws es, f v k = Returned (ws, es) → ws = [].

(** The validator accepts: it returns without warnings and without errors. *)
Definition accepts (r : outcome (list string * list error)) : Prop :=
  r = Returned ([], []).

(** The number of unordered pairs of positions that hold equal strings. *)
Fixpoint unorderedDuplicates (l : list string) : nat :=
  match l with
  | [] => 0
  | x :: r => length (filter (x =.) r) + unorderedDuplicates r
  end.

(** The pairs of [duplicatePairs], between two indexed lists. *)
Definition crossPairs (l1 l2 : list (nat * string)) : list (nat * nat * string) :=
  q ← l1; p ← l2;
  if decide (q.2 = p.2 ∧ q.1 ≠ p.1) then [(q.1, p.1, q.2)] else [].

Module JobCreate.
Import JobResource.

(** What [resourceKubernetesJobCreate] takes from outside the two source
    files: [d.Get] of the configuration framework and the two expanders. *)
Class CreateHelpers : Type := {
  dGet : ResourceData → string → value;
  expandMetadata : list value → metav1_ObjectMeta;
  expandJobSpec : list value → batchv1_JobSpec + error
}.

Section Create.
Context `{Helpers} `{CreateHelpers}.

(** [resourceKubernetesJobCreate].  The remote create call is an operation
    on the state handed in as [remoteCreate]; the two values read from the
    configuration are asserted to be lists, metadata first. *)
Definition resourceKubernetesJobCreate (conn : Clientset)
    (remoteCreate : string → batchv1_Job → M (batchv1_Job + error)) : M (option error) :=
  (d <- getData;;
   metadataList <- lift (Validation.assertList (dGet d "metadata"));;
   let metadata := expandMetadata metadataList in
   specList <- lift (Validation.assertList (dGet d "spec"));;
   match expandJobSpec specList with
   | inr err => ret (Some err)
   | inl spec =>
       let job := mkJob metadata spec in
       r <- remoteCreate (Namespace metadata) job;;
       match r with
       | inr err => ret (Some err)
       | inl out =>
           modifyData (SetId (buildId (ObjectMeta out)));;;
           resourceKubernetesJobRead conn
       end
   end)%go.

End Create.

(** Further instances for closed examples.  [variantHelpers] lets the
    identifier parser, the spec patch, the encoder, the spec flattener and
    the schema check be chosen. *)
Definition variantHelpers (parse : string → (string * string) + error)
    (specOps : PatchOperations + error) (marshal : string + string)
    (flatSpec : value + error) (check : string → option error) : Helpers := {|
  idParts := parse;
  buildId := Name;
  patchMetadata := λ _ _ _, [ReplaceOperation "/metadata/labels" VNil];
  patchJobSpec := λ _ _ _, specOps;
  MarshalJSON := λ _, marshal;
  flattenMetadata := λ m, VString (Name m);
  flattenJobSpec := λ _, flatSpec;
  setCheck := λ key _, check key;
  backoff := λ _, 500%positive
|}.

Definition exampleCreateHelpers (spec : batchv1_JobSpec + error) : CreateHelpers := {|
  dGet := λ _ _, VList [];
  expandMetadata := λ _, mkObjectMeta "pi" "default" ∅ ∅;
  expandJobSpec := λ _, spec
|}.

(** Helpers with which the update reaches the remote patch call. *)
Definition patchingHelpers : Helpers :=
  variantHelpers (λ s, inl ("default", s)) (inl []) (inl "[]") (inl VNil) (λ _, None).

(** Instances of the abstract library functions for closed examples. *)
Definition exampleGoStd : GoStd := {|
  Quote := λ s, s;
  ToLower := λ s, s;
  regexpCompile := λ _, None;
  parseIPv6 := λ _, None;
  ipv6String := λ _, "::";
  hexString := λ _, "00"
|}.

(** A remote create call that succeeds and returns the submitted job. *)
Definition echoCreate (namespace : string) (job : batchv1_Job) : M (batchv1_Job + error) :=
  ret (inl job).

(** A cluster whose patch call answers [r]. *)
Definition patchConn (r : batchv1_Job + error) : Clientset :=
  mkClientset (λ _ _ _, inr (StatusError 404 "jobs.batch pi not found")) (λ _ _ _, None)
              (λ _ _ _ _, r).

(** The resource [pi] whose spec has changed. *)
Definition piChangedState : State :=
  mkState (mkResourceData "pi" ∅ (λ _, true) ∅) [].

End JobCreate.

(** * Properties of the validators *)
Module ValidationFacts.
Import Validation.

Lemma fmap_bind_list {A B C} (f : B → C) (g : A → list B) (l : list A) :
  f <$> (l ≫= g) = l ≫= (λ x, f <$> g x).
Proof.
  induction l as [|a l IH]; [done|].
  rewrite !bind_cons, fmap_app, IH. done.
Qed.

Lemma elem_of_indexed {A} (l : list A) (i : nat) (x : A) :
  (i, x) ∈ indexed l ↔ l !! i = Some x.
Proof.
  unfold indexed. rewrite elem_of_lookup_zip_with. split.
  - intros (n & j & y & [= -> ->] & Hj & Hy).
    apply lookup_seq in Hj as [-> _]. done.
  - intros Hx. exists i, i, x. split_and!; [done| |done].
    apply lookup_seq. split; [done|]. by eapply lookup_lt_Some.
Qed.

Lemma NoDup_indexed {A} (l : list A) : NoDup (indexed l).
Proof.
  apply NoDup_alt. intros i j [n x] Hi Hj. unfold indexed in *.
  apply lookup_zip_Some in Hi as [Hi _]. apply lookup_zip_Some in Hj as [Hj _].
  apply lookup_seq in Hi as [Hi _]. apply lookup_seq in Hj as [Hj _]. lia.
Qed.

(** [duplicatePairs] lists exactly the ordered pairs of distinct positions
    that hold the same string ... *)
Lemma elem_of_duplicatePairs (l : list string) (i j : nat) (x : string) :
  (i, j, x) ∈ duplicatePairs l ↔ i ≠ j ∧ l !! i = Some x ∧ l !! j = Some x.
Proof.
  unfold duplicatePairs. rewrite list_elem_of_bind. split.
  - intros ([n1 s1] & Hin & Hq). apply list_elem_of_bind in Hin as ([n2 s2] & Hin & Hp).
    apply elem_of_indexed in Hq, Hp. simpl in Hin.
    case_decide as Hd; [|by apply elem_of_nil in Hin].
    apply list_elem_of_singleton in Hin. destruct Hd as [? ?]. simpl in *.
    injection Hin as -> -> ->. subst. done.
  - intros (Hne & Hi & Hj). exists (i, x). split; [|by apply elem_of_indexed].
    apply list_elem_of_bind. exists (j, x). split; [|by apply elem_of_indexed].
    simpl. rewrite decide_True by done. by apply list_elem_of_singleton.
Qed.

(** ... and lists each of them once. *)
Lemma NoDup_duplicatePairs (l : list string) : NoDup (duplicatePairs l).
Proof.
  unfold duplicatePairs. apply NoDup_bind; [| |apply NoDup_indexed].
  - intros [n1 s1] [n1' s1'] t _ _ Hin Hin'.
    apply list_elem_of_bind in Hin as ([n2 s2] & Hin & _).
    apply list_elem_of_bind in Hin' as ([n2' s2'] & Hin' & _).
    simpl in *. repeat case_decide; try (by apply elem_of_nil in Hin);
      try (by apply elem_of_nil in Hin').
    apply list_elem_of_singleton in Hin, Hin'. congruence.
  - intros [n1 s1] _. apply NoDup_bind; [| |apply NoDup_indexed].
    + intros [n2 s2] [n2' s2'] t _ _ Hin Hin'. simpl in *.
      repeat case_decide; try (by apply elem_of_nil in Hin);
        try (by apply elem_of_nil in Hin').
      apply list_elem_of_singleton in Hin, Hin'. destruct_and!. congruence.
    + intros [n2 s2] _. simpl. case_decide; [apply NoDup_singleton|apply NoDup_nil_2].
Qed.

Lemma duplicatePairs_nil_iff (l : list string) : duplicatePairs l = [] ↔ NoDup l.
Proof.
  rewrite NoDup_alt. split.
  - intros Hnil i j x Hi Hj. destruct (decide (i = j)) as [|Hne]; [done|].
    assert ((i, j, x) ∈ duplicatePairs l) as Hin by by apply elem_of_duplicatePairs.
    rewrite Hnil in Hin. by apply elem_of_nil in Hin.
  - intros Hnd. destruct (duplicatePairs l) as [|[[i j] x] r] eqn:Heq; [done|].
    assert ((i, j, x) ∈ duplicatePairs l) as Hin by (rewrite Heq; left).
    apply elem_of_duplicatePairs in Hin as (Hne & Hi & Hj).
    exfalso. apply Hne. by eapply Hnd.
Qed.

Section Facts.
Context `{GoStd} `{Structure}.

Lemma unique_inner_strings (k : string) (n1 : nat) (s1 : string) (rest : list string) :
  ∀ (n2 : nat) (errors : list error),
    unique_inner k n1 (VString s1) (VString <$> rest) n2 errors
    = Returned (errors ++
        (p ← zip (seq n2 (length rest)) rest;
         if decide (s1 = p.2 ∧ n1 ≠ p.1) then [Errorf (duplicate_msg k s1)] else [])).
Proof.
  induction rest as [|s2 rest IH]; intros n2 errors; simpl.
  - by rewrite app_nil_r.
  - rewrite IH. f_equal.
    destruct (String.eqb_spec s1 s2) as [->|Hne]; simpl.
    + destruct (Nat.eqb_spec n1 n2) as [->|Hn]; simpl.
      * rewrite decide_False; [done|]. intros [_ Hn]. by apply Hn.
      * rewrite decide_True by done. by rewrite <- app_assoc.
    + rewrite decide_False; [done|]. intros [Hs _]. by apply Hne.
Qed.

Lemma unique_outer_strings (k : string) (whole rest : list string) :
  ∀ (n1 : nat) (errors : list error),
    unique_outer k (VString <$> whole) (VString <$> rest) n1 errors
    = Returned (errors ++
        (q ← zip (seq n1 (length rest)) rest; p ← indexed whole;
         if decide (q.2 = p.2 ∧ q.1 ≠ p.1) then [Errorf (duplicate_msg k q.2)] else [])).
Proof.
  induction rest as [|s1 rest IH]; intros n1 errors; simpl.
  - by rewrite app_nil_r.
  - rewrite unique_inner_strings. simpl. rewrite IH. by rewrite <- app_assoc.
Qed.

Lemma ValidateListUniqueStrings_strings (l : list string) (k : string) :
  ValidateListUniqueStrings (VList (VString <$> l)) k
  = Returned ([], (λ t, Errorf (duplicate_msg k t.2)) <$> duplicatePairs l).
Proof.
  unfold ValidateListUniqueStrings. simpl.
  rewrite unique_outer_strings. simpl. do 2 f_equal.
  unfold duplicatePairs. rewrite fmap_bind_list.
  apply list_bind_ext; [|done]. intros q.
  rewrite fmap_bind_list. apply list_bind_ext; [|done]. intros p.
  by case_decide.
Qed.

(** The validators that test the dynamic type first answer a value of
    another type with exactly one "expected type" error. *)
Lemma checked_validators_type_mismatch (v : value) (k : string) (min max : Z)
    (valid : list string) (ignoreCase : bool) :
  (isInt v = false →
     IntBetween min max v k = Returned ([], [Errorf ("expected type of " +:+ k +:+ " to be int")])
     ∧ IntAtLeast min v k = Returned ([], [Errorf ("expected type of " +:+ k +:+ " to be int")])
     ∧ IntAtMost max v k = Returned ([], [Errorf ("expected type of " +:+ k +:+ " to be int")]))
  ∧ (isString v = false →
     StringInSlice valid ignoreCase v k
       = Returned ([], [Errorf ("expected type of " +:+ k +:+ " to be string")])
     ∧ StringLenBetween min max v k
       = Returned ([], [Errorf ("expected type of " +:+ k +:+ " to be string")])
     ∧ CIDRNetwork min max v k
       = Returned ([], [Errorf ("expected type of " +:+ k +:+ " to be string")])).
Proof. split; intros Hv; destruct v; try discriminate Hv; done. Qed.

Lemma ValidateRegexp_not_string (v : value) (k : string) :
  isString v = false → ValidateRegexp v k = Panicked.
Proof. intros Hv; destruct v; try discriminate Hv; done. Qed.

Lemma ValidateListUniqueStrings_not_list (v : value) (k : string) :
  (∀ l, v ≠ VList l) → ValidateListUniqueStrings v k = Panicked.
Proof. intros Hv; destruct v; try done. by destruct (Hv l). Qed.

(** C2 (the code departs from the claim): [ValidateRegexp] and
    [ValidateListUniqueStrings] assert the dynamic type without testing it.
    Handed the integer 5 where a string is expected, a string where a list
    is expected, or a list with an element that is not a string, they panic
    instead of returning one "expected type" error. *)
Theorem unchecked_assertions_panic (k : string) :
  ValidateRegexp (VInt 5) k = Panicked
  ∧ ValidateListUniqueStrings (VString "abc") k = Panicked
  ∧ ValidateListUniqueStrings (VList [VString "a"; VInt 5]) k = Panicked.
Proof. split_and!; reflexivity. Qed.

(** C8: [CIDRNetwork(8,24)] accepts ["10.0.0.0/16"] with no error; it
    rejects ["10.0.0.1/16"] with one error whose message names the canonical
    form ["10.0.0.0/16"]; and among the errors it reports for ["10.0.0.0/4"]
    is the one saying that 4 significant bits lie outside 8..24. *)
Theorem CIDRNetwork_8_24_examples (k : string) :
  CIDRNetwork 8 24 (VString "10.0.0.0/16") k = Returned ([], [])
  ∧ CIDRNetwork 8 24 (VString "10.0.0.1/16") k
    = Returned ([], [Errorf ("expected " +:+ k +:+
        " to contain a valid network CIDR, expected 10.0.0.0/16, got 10.0.0.1/16")])
  ∧ CIDRNetwork 8 24 (VString "10.0.0.0/4") k
    = Returned ([], [Errorf ("expected " +:+ k +:+
        " to contain a valid network CIDR, expected 0.0.0.0/4, got 10.0.0.0/4");
                     Errorf ("expected " +:+ Quote k +:+
        " to contain a network CIDR with between 8 and 24 significant bits, got: 4")]).
Proof. split_and!; reflexivity. Qed.

(** C9: for every list of strings the uniqueness validator returns one
    error per ordered duplicate pair, each naming the duplicated string; so
    a list with two equal elements yields an error that mentions the
    repeated value, and a list of pairwise distinct strings yields none.
    In particular [["a","b","a"]] yields duplicate errors mentioning ["a"]
    and [["a","b","c"]] yields no error. *)
Theorem ValidateListUniqueStrings_reports_duplicates (l : list string) (k : string) :
  (∃ es : list error,
     ValidateListUniqueStrings (VList (VString <$> l)) k = Returned ([], es)
     ∧ es = (λ t, Errorf (Quote k +:+ ": duplicate entry - " +:+ t.2)) <$> duplicatePairs l
     ∧ (∀ i j x, i ≠ j → l !! i = Some x → l !! j = Some x →
          Errorf (Quote k +:+ ": duplicate entry - " +:+ x) ∈ es)
     ∧ (NoDup l ↔ es = []))
  ∧ ValidateListUniqueStrings (VList [VString "a"; VString "b"; VString "a"]) k
    = Returned ([], [Errorf (Quote k +:+ ": duplicate entry - a");
                     Errorf (Quote k +:+ ": duplicate entry - a")])
  ∧ ValidateListUniqueStrings (VList [VString "a"; VString "b"; VString "c"]) k
    = Returned ([], []).
Proof.
  split_and!; [|reflexivity..].
  eexists. split; [apply ValidateListUniqueStrings_strings|].
  split; [done|]. split.
  - intros i j x Hne Hi Hj.
    apply (list_elem_of_fmap_2 (λ t, Errorf (duplicate_msg k t.2)) _ (i, j, x)).
    by apply elem_of_duplicatePairs.
  - rewrite <- duplicatePairs_nil_iff. split; [by intros ->|].
    apply fmap_nil_inv.
Qed.

End Facts.
End ValidationFacts.

(** * Properties of the Job resource *)
Module JobResourceFacts.
Import JobResource JobTerms.

Section Facts.
Context `{Helpers}.

Lemma deletePoll_step (conn : Clientset) (namespace name : string) (st : State) :
  deletePoll conn namespace name st =
  Returned (match pollOutcome conn st namespace name 0 with
            | inr err => if isNotFound err then None else Some (NonRetryableError err)
            | inl _ => Some (RetryableError (Errorf ("Job " +:+ name +:+ " still exists")))
            end, afterGets st namespace name 1).
Proof.
  unfold deletePoll, bind, remoteGet, pollOutcome, afterGets. simpl.
  rewrite Nat.add_0_r.
  destruct (Jobs_Get conn (length (calls st)) namespace name) as [job|err]; [done|].
  by destruct (isNotFound err).
Qed.

Lemma afterGets_afterGets (st : State) (namespace name : string) (a b : nat) :
  afterGets (afterGets st namespace name a) namespace name b
  = afterGets st namespace name (a + b).
Proof.
  unfold afterGets. simpl. by rewrite <- app_assoc, replicate_add.
Qed.

Lemma pollOutcome_afterGets (conn : Clientset) (st : State) (namespace name : string)
    (a j : nat) :
  pollOutcome conn (afterGets st namespace name a) namespace name j
  = pollOutcome conn st namespace name (a + j).
Proof.
  unfold pollOutcome, afterGets. simpl.
  by rewrite length_app, length_replicate, Nat.add_assoc.
Qed.

Lemma isNotFound_iff (err : error) :
  isNotFound err = true ↔ ∃ msg, err = StatusError 404 msg.
Proof.
  split.
  - destruct err as [code msg| |]; simpl; try discriminate.
    intros Hc. apply Z.eqb_eq in Hc as ->. by exists msg.
  - by intros [msg ->].
Qed.

(** One turn of the retry loop, as an equation. *)
Lemma Retry_loop_unfold (timeout : Z) (f : M (option RetryError)) (elapsed : Z)
    (attempt : nat) (st : State) :
  Retry_loop timeout f elapsed attempt st =
  match f st with
  | Panicked => Panicked
  | Returned (None, st') => Returned (None, st')
  | Returned (Some rerr, st') =>
      if Retryable rerr then
        if decide (elapsed + Z.pos (backoff attempt) < timeout)
        then Retry_loop timeout f (elapsed + Z.pos (backoff attempt)) (S attempt) st'
        else Returned (Some DeleteTimeout, st')
      else Returned (Some (Err rerr), st')
  end.
Proof.
  simp Retry_loop. destruct (f st) as [[[rerr|] st']|]; simpl; try done.
  destruct (Retryable rerr); simpl; [|done].
  destruct (Z_lt_dec (elapsed + Z.pos (backoff attempt)) timeout); simpl;
    [by rewrite decide_True|by rewrite decide_False].
Qed.

(** The delete-confirmation loop always returns.  It makes polls
    [0..n]: polls before [n] saw the object, and each poll after the first
    started before the deadline.  Either poll [n] was answered with an error
    that decided the result, or it saw the object and the pause that
    followed reached the deadline. *)
Lemma Retry_loop_deletePoll (conn : Clientset) (namespace name : string) (timeout : Z) :
  ∀ (elapsed : Z) (attempt : nat) (st : State),
  ∃ n : nat,
    (∀ j, (j < n)%nat → isObject (pollOutcome conn st namespace name j) = true)
    ∧ (n = 0%nat ∨ elapsed + waited attempt n < timeout)
    ∧ ((∃ err, pollOutcome conn st namespace name n = inr err
             ∧ Retry_loop timeout (deletePoll conn namespace name) elapsed attempt st
               = Returned (verdict err, afterGets st namespace name (S n)))
       ∨ (isObject (pollOutcome conn st namespace name n) = true
          ∧ timeout ≤ elapsed + waited attempt (S n)
          ∧ Retry_loop timeout (deletePoll conn namespace name) elapsed attempt st
            = Returned (Some DeleteTimeout, afterGets st namespace name (S n)))).
Proof.
  intros elapsed. remember (Z.to_nat (timeout - elapsed)) as m eqn:Hm.
  revert elapsed Hm. induction m as [m IH] using lt_wf_ind.
  intros elapsed Hm attempt st.
  rewrite Retry_loop_unfold, deletePoll_step.
  destruct (pollOutcome conn st namespace name 0) as [job|err] eqn:Hp0.
  - simpl. case_decide as Hlt.
    + assert (Z.to_nat (timeout - (elapsed + Z.pos (backoff attempt))) < m)%nat as Hdec by lia.
      destruct (IH (Z.to_nat (timeout - (elapsed + Z.pos (backoff attempt)))) Hdec
                   (elapsed + Z.pos (backoff attempt)) eq_refl (S attempt)
                   (afterGets st namespace name 1)) as (n & Hobj & Hn & Hres).
      exists (S n). split; [|split].
      * intros [|j] Hj; [by rewrite Hp0|].
        specialize (Hobj j ltac:(lia)). by rewrite pollOutcome_afterGets in Hobj.
      * right. simpl. destruct Hn as [->|Hn]; simpl; lia.
      * rewrite pollOutcome_afterGets, afterGets_afterGets in Hres. simpl in Hres.
        destruct Hres as [(err & Hperr & Hres)|(Hpobj & Hdead & Hres)].
        -- left. exists err. by rewrite Hres.
        -- right. rewrite Hres. split_and!; [done| |done].
           cbn [waited] in *. lia.
    + exists 0%nat. split; [intros j Hj; lia|]. split; [by left|].
      right. rewrite Hp0. split_and!; [done| |done]. simpl. lia.
  - exists 0%nat. split; [intros j Hj; lia|]. split; [by left|].
    left. exists err. split; [done|]. unfold verdict. by destruct (isNotFound err).
Qed.

Lemma waited_nonneg (k attempt : nat) : 0 ≤ waited attempt k.
Proof.
  revert attempt. induction k as [|k IH]; intros attempt; simpl; [done|].
  specialize (IH (S attempt)). lia.
Qed.

(** The first poll answered with an error decides the loop, provided the
    deadline has not passed when that poll is due. *)
Lemma Retry_loop_decided (conn : Clientset) (namespace name : string) (timeout : Z) :
  ∀ (k : nat) (elapsed : Z) (attempt : nat) (st : State) (err : error),
    (∀ j, (j < k)%nat → isObject (pollOutcome conn st namespace name j) = true) →
    pollOutcome conn st namespace name k = inr err →
    elapsed + waited attempt k < timeout →
    Retry_loop timeout (deletePoll conn namespace name) elapsed attempt st
    = Returned (verdict err, afterGets st namespace name (S k)).
Proof.
  induction k as [|k IH]; intros elapsed attempt st err Hobj Herr Htime;
    rewrite Retry_loop_unfold, deletePoll_step.
  - rewrite Herr. unfold verdict. by destruct (isNotFound err).
  - pose proof (Hobj 0%nat ltac:(lia)) as H0.
    destruct (pollOutcome conn st namespace name 0) as [job|e0]; [|done].
    cbn [waited] in Htime. pose proof (waited_nonneg k (S attempt)).
    simpl. rewrite decide_True by lia.
    rewrite (IH _ _ _ err).
    + by rewrite afterGets_afterGets.
    + intros j Hj. rewrite pollOutcome_afterGets. apply Hobj. lia.
    + by rewrite pollOutcome_afterGets.
    + lia.
Qed.

(** Once all earlier polls have seen the object, an error is the first one. *)
Lemma first_error_unique (conn : Clientset) (st : State) (namespace name : string)
    (n k : nat) (e1 e2 : error) :
  (∀ j, (j < n)%nat → isObject (pollOutcome conn st namespace name j) = true) →
  (∀ j, (j < k)%nat → isObject (pollOutcome conn st namespace name j) = true) →
  pollOutcome conn st namespace name n = inr e1 →
  pollOutcome conn st namespace name k = inr e2 →
  n = k ∧ e1 = e2.
Proof.
  intros Hn Hk H1 H2.
  assert (n = k) as ->.
  { destruct (Nat.lt_trichotomy n k) as [Hlt|[Heq|Hgt]]; [|done|].
    - specialize (Hk n Hlt). by rewrite H1 in Hk.
    - specialize (Hn k Hgt). by rewrite H2 in Hn. }
  split; [done|]. congruence.
Qed.

Lemma Retry_confirms_iff (conn : Clientset) (namespace name : string) (st : State) :
  (∃ st', Retry (1 * minute) (deletePoll conn namespace name) st = Returned (None, st'))
  ↔ confirmedGone conn st namespace name.
Proof.
  unfold Retry. split.
  - intros [st' Hret].
    destruct (Retry_loop_deletePoll conn namespace name (1 * minute) 0 0%nat st)
      as (n & Hobj & Hn & [(err & Herr & Hres)|(_ & _ & Hres)]);
      rewrite Hres in Hret; [|done].
    injection Hret as Hv _. unfold verdict in Hv.
    destruct (isNotFound err) eqn:Hnf; [|done].
    apply isNotFound_iff in Hnf as [msg ->]. exists n, msg.
    split_and!; [done..|]. unfold pollTime. destruct Hn as [->|Hn]; [done|lia].
  - intros (k & msg & Hobj & Herr & Htime).
    eexists. by apply (Retry_loop_decided _ _ _ _ k 0 0%nat st (StatusError 404 msg)).
Qed.

(** C1: in the delete-confirmation loop, whatever the cluster answers, the
    loop returns.  The first poll that is answered with an error ends it at
    once: with success if the error is a 404 status, with that very error
    otherwise; no further get is issued.  If every poll sees the object, the
    loop polls again after each pause until the one-minute deadline is
    reached and then fails with [DeleteTimeout]. *)
Theorem delete_confirmation_loop (conn : Clientset) (namespace name : string) (st : State) :
  let poll := pollOutcome conn st namespace name in
  let loop := Retry (1 * minute) (deletePoll conn namespace name) st in
  (∃ (r : option error) (n : nat), loop = Returned (r, afterGets st namespace name (S n)))
  ∧ (∀ k msg,
       (∀ j, (j < k)%nat → isObject (poll j) = true) → pollTime k < 1 * minute →
       poll k = inr (StatusError 404 msg) →
       loop = Returned (None, afterGets st namespace name (S k)))
  ∧ (∀ k err,
       (∀ j, (j < k)%nat → isObject (poll j) = true) → pollTime k < 1 * minute →
       poll k = inr err → isNotFound err = false →
       loop = Returned (Some err, afterGets st namespace name (S k)))
  ∧ ((∀ j, isObject (poll j) = true) →
       ∃ n, loop = Returned (Some DeleteTimeout, afterGets st namespace name (S n))
            ∧ pollTime n < 1 * minute ≤ pollTime (S n)).
Proof.
  intros poll loop. subst poll loop. unfold Retry. split_and!.
  - destruct (Retry_loop_deletePoll conn namespace name (1 * minute) 0 0%nat st)
      as (n & _ & _ & [(err & _ & Hres)|(_ & _ & Hres)]); eauto.
  - intros k msg Hobj Htime Herr.
    by rewrite (Retry_loop_decided _ _ _ _ k 0 0%nat st _ Hobj Herr).
  - intros k err Hobj Htime Herr Hnf.
    rewrite (Retry_loop_decided _ _ _ _ k 0 0%nat st _ Hobj Herr); [|done].
    unfold verdict. by rewrite Hnf.
  - intros Hall.
    destruct (Retry_loop_deletePoll conn namespace name (1 * minute) 0 0%nat st)
      as (n & _ & Hn & [(err & Herr & _)|(_ & Hdead & Hres)]).
    + specialize (Hall n). by rewrite Herr in Hall.
    + exists n. split; [done|]. unfold pollTime.
      split; [destruct Hn as [->|Hn]; [done|lia]|lia].
Qed.

(** C3: when the remote get fails, [Exists] answers [(false, nil)] for a
    404 status error and [(true, err)] for any other error [err]. *)
Theorem Exists_maps_get_errors (conn : Clientset) (st : State) (namespace name : string)
    (err : error) :
  idParts (Id (rd st)) = inl (namespace, name) →
  Jobs_Get conn (length (calls st)) namespace name = inr err →
  let st1 := mkState (rd st) (calls st ++ [CallGet namespace name]) in
  ((∃ msg, err = StatusError 404 msg) →
     resourceKubernetesJobExists conn st = Returned ((false, None), st1))
  ∧ ((∀ msg, err ≠ StatusError 404 msg) →
     resourceKubernetesJobExists conn st = Returned ((true, Some err), st1)).
Proof.
  intros Hid Hget st1.
  unfold resourceKubernetesJobExists, bind, getData, remoteGet. simpl.
  rewrite Hid. simpl. rewrite Hget. split.
  - by intros [msg ->].
  - intros Hne. destruct (isNotFound err) eqn:Hnf; [|done].
    apply isNotFound_iff in Hnf as [msg ->]. by destruct (Hne msg).
Qed.

(** C4: an update always computes the metadata ChangeSet; it computes the
    spec ChangeSet, and appends it, only when the spec has changed; and when
    the combined ChangeSet does not serialize, it returns the serialization
    error without issuing any remote call and without touching the
    resource data. *)
Theorem Update_changeset_and_encoding (conn : Clientset) (st : State)
    (namespace name : string) :
  idParts (Id (rd st)) = inl (namespace, name) →
  let d := rd st in
  let metaOps := patchMetadata "metadata.0." "/metadata/" d in
  (HasChange d "spec" = false → updateOps d = inl metaOps)
  ∧ (HasChange d "spec" = true →
       ∀ specOps, patchJobSpec "/spec" "spec.0." d = inl specOps →
                  updateOps d = inl (metaOps ++ specOps))
  ∧ (∀ ops, updateOps d = inl ops → metaOps `prefix_of` ops)
  ∧ (∀ ops msg, updateOps d = inl ops → MarshalJSON ops = inr msg →
       resourceKubernetesJobUpdate conn st
       = Returned (Some (Errorf ("Failed to marshal update operations: " +:+ msg)), st)).
Proof.
  intros Hid d metaOps. subst d metaOps. split_and!.
  - unfold updateOps. by intros ->.
  - unfold updateOps. by intros -> specOps ->.
  - unfold updateOps. intros ops.
    destruct (HasChange (rd st) "spec").
    + destruct (patchJobSpec "/spec" "spec.0." (rd st)) as [specOps|e]; [|done].
      intros [= <-]. by apply prefix_app_r.
    + by intros [= <-].
  - intros ops msg Hops Hmsg.
    unfold resourceKubernetesJobUpdate, bind, getData. simpl.
    rewrite Hid. simpl. rewrite Hops, Hmsg. by destruct st.
Qed.

Lemma Delete_unfold (conn : Clientset) (st : State) :
  resourceKubernetesJobDelete conn st =
  match idParts (Id (rd st)) with
  | inr err => Returned (Some err, st)
  | inl (namespace, name) =>
      let st1 := mkState (rd st) (calls st ++ [CallDelete namespace name]) in
      match Jobs_Delete conn (length (calls st)) namespace name with
      | Some err => Returned (Some err, st1)
      | None =>
          match Retry (1 * minute) (deletePoll conn namespace name) st1 with
          | Returned (Some err, st2) => Returned (Some err, st2)
          | Returned (None, st2) => Returned (None, mkState (SetId "" (rd st2)) (calls st2))
          | Panicked => Panicked
          end
      end
  end.
Proof.
  unfold resourceKubernetesJobDelete, bind, getData, remoteDelete, ret, modifyData.
  destruct (idParts (Id (rd st))) as [[namespace name]|err]; [|by destruct st].
  destruct (Jobs_Delete conn (length (calls st)) namespace name) as [err|]; [done|].
  destruct (Retry (1 * minute) (deletePoll conn namespace name) _) as [[[err|] st2]|]; done.
Qed.

(** C5: a delete invocation on a resource that has an identifier always
    returns, and afterwards the identifier is the empty string if and only
    if the polling loop confirmed the deletion.  In every other case (the
    identifier does not parse, the delete call fails, the loop stops on a
    fatal error, the loop times out) an error is returned and the resource
    data, identifier included, is what it was. *)
Theorem Delete_clears_id_iff_confirmed (conn : Clientset) (st : State) :
  Id (rd st) ≠ "" →
  ∃ (err : option error) (st' : State),
    resourceKubernetesJobDelete conn st = Returned (err, st')
    ∧ (Id (rd st') = "" ↔ deletionConfirmed conn st)
    ∧ (deletionConfirmed conn st → err = None)
    ∧ (¬ deletionConfirmed conn st → err ≠ None ∧ rd st' = rd st).
Proof.
  intros Hid. rewrite Delete_unfold.
  destruct (idParts (Id (rd st))) as [[namespace name]|e] eqn:Hparts.
  - destruct (Jobs_Delete conn (length (calls st)) namespace name) as [e|] eqn:Hdel; simpl.
    + assert (¬ deletionConfirmed conn st) as Hno.
      { intros (ns & nm & Hp & Hd & _). rewrite Hparts in Hp.
        injection Hp as <- <-. congruence. }
      eexists _, _. split; [done|]. simpl.
      split_and!; [split; [done|by intros ?%Hno]|by intros ?%Hno|done].
    + set (st1 := mkState (rd st) (calls st ++ [CallDelete namespace name])).
      destruct (delete_confirmation_loop conn namespace name st1) as [(r & n & Hret) _].
      simpl in Hret. rewrite Hret.
      pose proof (Retry_confirms_iff conn namespace name st1) as Hiff.
      rewrite Hret in Hiff. destruct r as [e|].
      * assert (¬ deletionConfirmed conn st) as Hno.
        { intros (ns & nm & Hp & _ & Hc). rewrite Hparts in Hp.
          injection Hp as <- <-. apply Hiff in Hc as [st' Hc]. done. }
        eexists _, _. split; [done|]. simpl.
        split_and!; [split; [done|by intros ?%Hno]|by intros ?%Hno|done].
      * assert (deletionConfirmed conn st) as Hyes.
        { exists namespace, name. split_and!; [done..|]. apply Hiff. by eexists. }
        eexists _, _. split; [done|]. simpl.
        split_and!; [done|done|by intros Hno; destruct (Hno Hyes)].
  - assert (¬ deletionConfirmed conn st) as Hno.
    { intros (ns & nm & Hp & _). rewrite Hparts in Hp. done. }
    eexists _, _. split; [done|].
    split_and!; [split; [done|by intros ?%Hno]|by intros ?%Hno|done].
Qed.

Lemma removeKey_delete (key : string) (labels : gmap string string) :
  removeKey key labels = delete key labels.
Proof.
  unfold removeKey. destruct (labels !! key) eqn:Hk; [done|]. by rewrite delete_id.
Qed.

Lemma withoutGeneratedLabels_lookup (labels : gmap string string) (key : string) :
  withoutGeneratedLabels labels !! key
  = if decide (key = "controller-uid" ∨ key = "job-name") then None else labels !! key.
Proof.
  unfold withoutGeneratedLabels. case_decide as Hk.
  - destruct Hk as [->| ->]; [|apply lookup_delete_eq].
    rewrite lookup_delete_ne by done. apply lookup_delete_eq.
  - rewrite !lookup_delete_ne; [done|..]; intros <-; apply Hk; auto.
Qed.

Lemma manualSelectorOptedIn_config (d : ResourceData) :
  (config d !! "spec.0.manual_selector" = None → manualSelectorOptedIn d = false)
  ∧ (∀ b, config d !! "spec.0.manual_selector" = Some (VBool b) → manualSelectorOptedIn d = b).
Proof.
  unfold manualSelectorOptedIn, GetOk. split.
  - by intros ->.
  - intros b ->. simpl. by destruct b.
Qed.

Lemma Read_unfold (conn : Clientset) (st : State) :
  resourceKubernetesJobRead conn st =
  match idParts (Id (rd st)) with
  | inr err => Returned (Some err, st)
  | inl (namespace, name) =>
      let st1 := mkState (rd st) (calls st ++ [CallGet namespace name]) in
      match Jobs_Get conn (length (calls st)) namespace name with
      | inr err => Returned (Some err, st1)
      | inl job =>
          match removeGeneratedLabels (rd st) job with
          | Returned job' => projectJob job' st1
          | Panicked => Panicked
          end
      end
  end.
Proof.
  unfold resourceKubernetesJobRead, bind, getData, remoteGet, ret, lift.
  destruct (idParts (Id (rd st))) as [[namespace name]|err]; [|by destruct st].
  destruct (Jobs_Get conn (length (calls st)) namespace name) as [job|err]; [|done].
  by destruct (removeGeneratedLabels (rd st) job).
Qed.

(** Projecting a job never panics, and when it succeeds the state holds
    the flattened metadata of that very job. *)
Lemma projectJob_returns (job : batchv1_Job) (st : State) :
  ∃ (err : option error) (st' : State),
    projectJob job st = Returned (err, st')
    ∧ (err = None → attrs (rd st') !! "metadata" = Some (flattenMetadata (ObjectMeta job))).
Proof.
  unfold projectJob, dSet, bind, ret, modifyData.
  destruct (setCheck "metadata" (flattenMetadata (ObjectMeta job))) as [e|];
    [by eexists _, _|].
  destruct (flattenJobSpec (Spec job)) as [jobSpec|e]; [|by eexists _, _].
  destruct (setCheck "spec" jobSpec) as [e|]; [by eexists _, _|].
  eexists _, _. split; [done|]. intros _. simpl.
  rewrite lookup_insert_ne by done. apply lookup_insert_eq.
Qed.

Lemma removeGeneratedLabels_unfold (d : ResourceData) (job : batchv1_Job) :
  removeGeneratedLabels d job =
  if manualSelectorOptedIn d then Returned job
  else match Selector (Spec job) with
       | None => Panicked
       | Some sel =>
           Returned (mkJob
             (mkObjectMeta (Name (ObjectMeta job)) (Namespace (ObjectMeta job))
                (withoutGeneratedLabels (Labels (ObjectMeta job)))
                (Annotations (ObjectMeta job)))
             (mkJobSpec (Parallelism (Spec job)) (Completions (Spec job))
                (Some (mkLabelSelector (delete "controller-uid" (MatchLabels sel))))
                (ManualSelector (Spec job))))
       end.
Proof.
  unfold removeGeneratedLabels, manualSelectorOptedIn, withoutGeneratedLabels.
  destruct (GetOk d "spec.0.manual_selector").2; simpl; [done|].
  destruct (Selector (Spec job)) as [sel|]; [|done].
  by rewrite !removeKey_delete.
Qed.

(** C6: during Read, for the job the remote get returned: when the user
    has not opted into manual selector control, the job that is projected
    into the resource data has the labels [controller-uid] and [job-name]
    removed from its metadata labels, every other label being kept (and
    nothing is projected at all when the job has no selector, see C10);
    when the user has opted in, the job is projected as it was returned. *)
Theorem Read_removes_generated_labels (conn : Clientset) (st : State)
    (namespace name : string) (job : batchv1_Job) :
  idParts (Id (rd st)) = inl (namespace, name) →
  Jobs_Get conn (length (calls st)) namespace name = inl job →
  let st1 := mkState (rd st) (calls st ++ [CallGet namespace name]) in
  let meta := ObjectMeta job in
  let labels' := withoutGeneratedLabels (Labels meta) in
  (manualSelectorOptedIn (rd st) = false →
     match Selector (Spec job) with
     | None => resourceKubernetesJobRead conn st = Panicked
     | Some _ =>
         ∃ job', resourceKubernetesJobRead conn st = projectJob job' st1
           ∧ ObjectMeta job'
             = mkObjectMeta (Name meta) (Namespace meta) labels' (Annotations meta)
           ∧ (∀ st', resourceKubernetesJobRead conn st = Returned (None, st') →
                attrs (rd st') !! "metadata" = Some (flattenMetadata (ObjectMeta job')))
     end)
  ∧ labels' !! "controller-uid" = None
  ∧ labels' !! "job-name" = None
  ∧ (∀ key, key ≠ "controller-uid" → key ≠ "job-name" → labels' !! key = Labels meta !! key)
  ∧ (manualSelectorOptedIn (rd st) = true →
       resourceKubernetesJobRead conn st = projectJob job st1
       ∧ (∀ st', resourceKubernetesJobRead conn st = Returned (None, st') →
            attrs (rd st') !! "metadata" = Some (flattenMetadata meta))).
Proof.
  intros Hid Hget st1 meta labels'. subst meta labels'.
  rewrite Read_unfold, Hid, Hget, removeGeneratedLabels_unfold. simpl. fold st1.
  split_and!.
  - intros ->. destruct (Selector (Spec job)) as [sel|]; [|done].
    eexists. split; [done|]. split; [done|]. intros st' Hret.
    destruct (projectJob_returns
      (mkJob (mkObjectMeta (Name (ObjectMeta job)) (Namespace (ObjectMeta job))
                (withoutGeneratedLabels (Labels (ObjectMeta job)))
                (Annotations (ObjectMeta job)))
             (mkJobSpec (Parallelism (Spec job)) (Completions (Spec job))
                (Some (mkLabelSelector (delete "controller-uid" (MatchLabels sel))))
                (ManualSelector (Spec job)))) st1) as (err & st2 & Hp & Hattrs).
    rewrite Hp in Hret. injection Hret as -> ->. by apply Hattrs.
  - rewrite withoutGeneratedLabels_lookup. by rewrite decide_True by auto.
  - rewrite withoutGeneratedLabels_lookup. by rewrite decide_True by auto.
  - intros key Hk1 Hk2. rewrite withoutGeneratedLabels_lookup.
    rewrite decide_False; [done|]. by intros [?|?].
  - intros ->. split; [done|]. intros st' Hret.
    destruct (projectJob_returns job st1) as (err & st2 & Hp & Hattrs).
    rewrite Hp in Hret. injection Hret as -> ->. by apply Hattrs.
Qed.

(** C10: with [manual_selector] unset or set to false, Read reads the match
    labels through the selector of the job it was handed.  For a job whose
    selector is nil it panics instead of returning an error; for a job with
    a selector it returns. *)
Theorem Read_faults_on_nil_selector (conn : Clientset) (st : State)
    (namespace name : string) (job : batchv1_Job) :
  idParts (Id (rd st)) = inl (namespace, name) →
  Jobs_Get conn (length (calls st)) namespace name = inl job →
  (config (rd st) !! "spec.0.manual_selector" = None
   ∨ config (rd st) !! "spec.0.manual_selector" = Some (VBool false)) →
  (Selector (Spec job) = None → resourceKubernetesJobRead conn st = Panicked)
  ∧ (Selector (Spec job) ≠ None →
       ∃ (err : option error) (st' : State),
         resourceKubernetesJobRead conn st = Returned (err, st')).
Proof.
  intros Hid Hget Hcfg.
  assert (manualSelectorOptedIn (rd st) = false) as Hopt.
  { destruct (manualSelectorOptedIn_config (rd st)) as [Hnone Hsome].
    destruct Hcfg as [Hc|Hc]; [by apply Hnone|by apply (Hsome false)]. }
  rewrite Read_unfold, Hid, Hget, removeGeneratedLabels_unfold, Hopt. simpl. split.
  - by intros ->.
  - intros Hsel. destruct (Selector (Spec job)) as [sel|]; [|done].
    destruct (projectJob_returns
      (mkJob (mkObjectMeta (Name (ObjectMeta job)) (Namespace (ObjectMeta job))
                (withoutGeneratedLabels (Labels (ObjectMeta job)))
                (Annotations (ObjectMeta job)))
             (mkJobSpec (Parallelism (Spec job)) (Completions (Spec job))
                (Some (mkLabelSelector (delete "controller-uid" (MatchLabels sel))))
                (ManualSelector (Spec job))))
      (mkState (rd st) (calls st ++ [CallGet namespace name]))) as (err & st2 & Hp & _).
    eauto.
Qed.

End Facts.
End JobResourceFacts.

(** * Closed instances of the statements above *)
Module JobResourceExamples.
Import JobResource JobTerms JobResourceFacts.

#[local] Existing Instance exampleHelpers.

Lemma delete_confirmation_loop_witness :
  Retry (1 * minute) (deletePoll lingeringConn "default" "pi") piState
  = Returned (None, afterGets piState "default" "pi" 3).
Proof.
  apply (proj1 (proj2 (delete_confirmation_loop lingeringConn "default" "pi" piState))
           2%nat "jobs.batch pi not found").
  - intros j Hj. destruct j as [|[|j]]; [reflexivity|reflexivity|lia].
  - reflexivity.
  - reflexivity.
Defined.

Lemma Exists_maps_get_errors_witness :
  idParts (Id (rd piState)) = inl ("default", "pi")
  ∧ Jobs_Get goneConn (length (calls piState)) "default" "pi"
    = inr (StatusError 404 "jobs.batch pi not found")
  ∧ resourceKubernetesJobExists goneConn piState
    = Returned ((false, None), mkState (rd piState) [CallGet "default" "pi"]).
Proof.
  split; [reflexivity|]. split; [reflexivity|].
  assert (idParts (Id (rd piState)) = inl ("default", "pi")) as Hid by reflexivity.
  assert (Jobs_Get goneConn (length (calls piState)) "default" "pi"
          = inr (StatusError 404 "jobs.batch pi not found")) as Hget by reflexivity.
  apply (Exists_maps_get_errors goneConn piState "default" "pi" _ Hid Hget).
  eexists. reflexivity.
Defined.

Lemma Update_changeset_and_encoding_witness :
  idParts (Id (rd piState)) = inl ("default", "pi")
  ∧ resourceKubernetesJobUpdate goneConn piState
    = Returned (Some (Errorf "Failed to marshal update operations: json: unsupported value"),
                piState).
Proof.
  assert (idParts (Id (rd piState)) = inl ("default", "pi")) as Hid by reflexivity.
  split; [exact Hid|].
  apply (proj2 (proj2 (proj2
           (Update_changeset_and_encoding goneConn piState "default" "pi" Hid)))
           [] "json: unsupported value"); reflexivity.
Defined.

Lemma Delete_clears_id_iff_confirmed_witness :
  Id (rd piState) ≠ ""
  ∧ ∃ (err : option error) (st' : State),
      resourceKubernetesJobDelete goneConn piState = Returned (err, st')
      ∧ (Id (rd st') = "" ↔ deletionConfirmed goneConn piState)
      ∧ (deletionConfirmed goneConn piState → err = None)
      ∧ (¬ deletionConfirmed goneConn piState → err ≠ None ∧ rd st' = rd piState).
Proof.
  assert (Id (rd piState) ≠ "") as Hid by (simpl; discriminate).
  split; [exact Hid|]. exact (Delete_clears_id_iff_confirmed goneConn piState Hid).
Defined.

Lemma Read_removes_generated_labels_witness :
  @idParts labelShowingHelpers (Id (rd piState)) = inl ("default", "pi")
  ∧ Jobs_Get labelledJobConn (length (calls piState)) "default" "pi" = inl labelledJob
  ∧ manualSelectorOptedIn (rd piState) = false
  ∧ Labels (ObjectMeta labelledJob) !! "controller-uid" = Some "8d5c"
  ∧ Labels (ObjectMeta labelledJob) !! "job-name" = Some "pi"
  ∧ ∃ job' : batchv1_Job,
      @resourceKubernetesJobRead labelShowingHelpers labelledJobConn piState
      = @projectJob labelShowingHelpers job'
          (mkState (rd piState) (calls piState ++ [CallGet "default" "pi"]))
      ∧ Labels (ObjectMeta job') !! "controller-uid" = None
      ∧ Labels (ObjectMeta job') !! "job-name" = None
      ∧ Labels (ObjectMeta job') !! "app" = Some "pi"
      ∧ ∃ st', @resourceKubernetesJobRead labelShowingHelpers labelledJobConn piState
               = Returned (None, st')
               ∧ attrs (rd st') !! "metadata" = Some (VMap [("app", VString "pi")]).
Proof.
  assert (@idParts labelShowingHelpers (Id (rd piState)) = inl ("default", "pi")) as Hid
    by reflexivity.
  assert (Jobs_Get labelledJobConn (length (calls piState)) "default" "pi"
          = inl labelledJob) as Hget by reflexivity.
  assert (manualSelectorOptedIn (rd piState) = false) as Hopt by reflexivity.
  assert (Labels (ObjectMeta labelledJob) !! "app" = Some "pi") as Happ
    by (vm_compute; reflexivity).
  split; [exact Hid|]. split; [exact Hget|]. split; [exact Hopt|].
  split; [vm_compute; reflexivity|]. split; [vm_compute; reflexivity|].
  destruct (@Read_removes_generated_labels labelShowingHelpers labelledJobConn piState
              "default" "pi" labelledJob Hid Hget)
    as (Hnot & Huid & Hjobname & Hkept & _).
  destruct (Hnot Hopt) as (job' & Hread & Hmeta & Hstored).
  assert ("app" ≠ "controller-uid") as Hne1 by discriminate.
  assert ("app" ≠ "job-name") as Hne2 by discriminate.
  exists job'. split; [exact Hread|]. rewrite Hmeta.
  split; [exact Huid|]. split; [exact Hjobname|].
  split.
  - exact (eq_trans (Hkept "app" Hne1 Hne2) Happ).
  - assert (∃ st', @resourceKubernetesJobRead labelShowingHelpers labelledJobConn piState
                   = Returned (None, st')) as [st' Hret]
      by (eexists; vm_compute; reflexivity).
    exists st'. split; [exact Hret|].
    rewrite (Hstored st' Hret), Hmeta. vm_compute. reflexivity.
Defined.

Lemma Read_faults_on_nil_selector_witness :
  idParts (Id (rd piState)) = inl ("default", "pi")
  ∧ Jobs_Get bareJobConn (length (calls piState)) "default" "pi" = inl (exampleJob None)
  ∧ config (rd piState) !! "spec.0.manual_selector" = None
  ∧ resourceKubernetesJobRead bareJobConn piState = Panicked.
Proof.
  assert (idParts (Id (rd piState)) = inl ("default", "pi")) as Hid by reflexivity.
  assert (Jobs_Get bareJobConn (length (calls piState)) "default" "pi"
          = inl (exampleJob None)) as Hget by reflexivity.
  assert (config (rd piState) !! "spec.0.manual_selector" = None) as Hcfg by reflexivity.
  split; [exact Hid|]. split; [exact Hget|]. split; [exact Hcfg|].
  apply (Read_faults_on_nil_selector bareJobConn piState "default" "pi" _
           Hid Hget (or_introl Hcfg)).
  reflexivity.
Defined.

End JobResourceExamples.

(** * Further properties of the validators *)
Module ValidationExtras.
Import Validation ValidationFacts.

Lemma indexed_cons {A} (x : A) (l : list A) :
  indexed (x :: l) = (0%nat, x) :: (prod_map S id <$> indexed l).
Proof.
  unfold indexed. simpl. f_equal.
  rewrite <- fmap_S_seq. generalize (seq 0 (length l)). intros ns.
  revert ns. induction l as [|y l IH]; intros [|n ns]; simpl; try done.
  by rewrite IH.
Qed.

Lemma length_bind_indicator {A B} (P : A → Prop) `{∀ a, Decision (P a)} (b : A → B)
    (l : list A) :
  length (l ≫= λ a, if decide (P a) then [b a] else []) = length (filter P l).
Proof.
  induction l as [|a l IH]; [done|].
  rewrite bind_cons, length_app, IH, filter_cons. by case_decide.
Qed.

Lemma length_bind_sum {A B} (f : A → list B) (l : list A) :
  length (l ≫= f) = sum_list (length ∘ f <$> l).
Proof.
  induction l as [|a l IH]; [done|].
  rewrite bind_cons, length_app, IH. done.
Qed.

Ltac contradictory_guards :=
  exfalso; simpl in *;
  repeat match goal with
         | Hc : _ ∧ _ |- _ => destruct Hc
         | Hn : ¬ (_ ∧ _) |- _ => apply Hn; clear Hn; split
         end;
  first [lia | congruence].

Lemma crossPairs_cons_l (a : nat * string) (l1 l2 : list (nat * string)) :
  length (crossPairs (a :: l1) l2)
  = (length (filter (λ p, a.2 = p.2 ∧ a.1 ≠ p.1) l2) + length (crossPairs l1 l2))%nat.
Proof.
  unfold crossPairs. rewrite bind_cons, length_app. f_equal.
  apply (length_bind_indicator (λ p, a.2 = p.2 ∧ a.1 ≠ p.1)).
Qed.

Lemma crossPairs_cons_r (a : nat * string) (l1 l2 : list (nat * string)) :
  length (crossPairs l1 (a :: l2))
  = (length (filter (λ q, q.2 = a.2 ∧ q.1 ≠ a.1) l1) + length (crossPairs l1 l2))%nat.
Proof.
  induction l1 as [|q l1 IH]; [done|].
  rewrite !crossPairs_cons_l, IH, !filter_cons.
  repeat case_decide; simpl; lia.
Qed.

Lemma crossPairs_shift (l1 l2 : list (nat * string)) :
  length (crossPairs (prod_map S id <$> l1) (prod_map S id <$> l2))
  = length (crossPairs l1 l2).
Proof.
  induction l1 as [|[n x] l1 IH]; [done|].
  rewrite fmap_cons, !crossPairs_cons_l, IH. f_equal. simpl.
  clear. induction l2 as [|[m y] l2 IH]; [done|].
  rewrite fmap_cons, !filter_cons. simpl.
  repeat case_decide; simpl; try lia; contradictory_guards.
Qed.

Lemma filter_shifted_indexed (x : string) (ns : list nat) (l : list string) :
  length ns = length l →
  length (filter (λ q : nat * string, x = q.2 ∧ 0%nat ≠ q.1) (prod_map S id <$> zip ns l))
  = length (filter (x =.) l)
  ∧ length (filter (λ q : nat * string, q.2 = x ∧ q.1 ≠ 0%nat) (prod_map S id <$> zip ns l))
    = length (filter (x =.) l).
Proof.
  revert ns. induction l as [|y l IH]; intros [|n ns] Hlen; try done.
  simpl in Hlen. destruct (IH ns ltac:(lia)) as [IH1 IH2].
  csimpl. rewrite !filter_cons. csimpl.
  split; repeat case_decide; csimpl; rewrite ?IH1, ?IH2; try lia; contradictory_guards.
Qed.

Lemma length_duplicatePairs (l : list string) :
  length (duplicatePairs l) = (2 * unorderedDuplicates l)%nat.
Proof.
  change (duplicatePairs l) with (crossPairs (indexed l) (indexed l)).
  induction l as [|x l IH]; [done|].
  rewrite indexed_cons, crossPairs_cons_l, crossPairs_cons_r.
  rewrite crossPairs_shift, IH, filter_cons. simpl.
  rewrite decide_False by (simpl; intros [_ Hne]; by apply Hne).
  destruct (filter_shifted_indexed x (seq 0 (length l)) l) as [Hl Hr];
    [by rewrite length_seq|].
  fold (indexed l) in Hl, Hr. rewrite Hl, Hr. lia.
Qed.

Section Extras.
Context `{GoStd} `{Structure}.

(** X1: an integer passes [IntBetween] exactly when it lies within the
    inclusive bounds; otherwise the validator reports exactly one error. *)
Theorem IntBetween_accepts_iff (min max v : Z) (k : string) :
  (accepts (IntBetween min max (VInt v) k) ↔ min ≤ v ≤ max)
  ∧ ∃ es, IntBetween min max (VInt v) k = Returned ([], es)
          ∧ (length es = if decide (min ≤ v ≤ max) then 0%nat else 1%nat).
Proof.
  unfold accepts, IntBetween.
  destruct (Z.ltb_spec v min), (Z.gtb_spec v max); simpl; (split; [split|]);
    try done; try lia; eexists; (split; [done|]); case_decide; simpl; lia.
Qed.

(** X2: for every value, of whatever type, [IntBetween] accepts exactly
    when both [IntAtLeast] of the lower bound and [IntAtMost] of the upper
    bound accept. *)
Theorem IntBetween_is_AtLeast_and_AtMost (min max : Z) (v : value) (k : string) :
  accepts (IntBetween min max v k)
  ↔ accepts (IntAtLeast min v k) ∧ accepts (IntAtMost max v k).
Proof.
  unfold accepts, IntBetween, IntAtLeast, IntAtMost.
  destruct v as [| |n| | |]; try (split; [done|by intros [? _]]).
  destruct (Z.ltb_spec n min), (Z.gtb_spec n max); simpl;
    (split; [try done|by intros [? ?]]).
Qed.

(** X3: a string passes [StringInSlice] exactly when it equals one of the
    valid strings or, with [ignoreCase] set, has the same lower-case form
    as one of them. *)
Theorem StringInSlice_accepts_iff (valid : list string) (ignoreCase : bool)
    (v k : string) :
  accepts (StringInSlice valid ignoreCase (VString v) k)
  ↔ ∃ str, str ∈ valid ∧ (v = str ∨ (ignoreCase = true ∧ ToLower v = ToLower str)).
Proof.
  unfold accepts, StringInSlice.
  destruct (existsb _ valid) eqn:Hex.
  - split; [intros _|done].
    apply existsb_exists in Hex as (str & Hin & Hstr). exists str.
    split; [by apply list_elem_of_In|].
    apply orb_true_iff in Hstr as [Heq|Hlow].
    + left. by apply String.eqb_eq.
    + apply andb_true_iff in Hlow as [-> Hlow]. right. split; [done|].
      by apply String.eqb_eq.
  - split; [done|]. intros (str & Hin & Hstr). exfalso.
    assert (existsb (λ str, String.eqb v str
              || (ignoreCase && String.eqb (ToLower v) (ToLower str))) valid = true) as Hyes.
    { apply existsb_exists. exists str. split; [by apply list_elem_of_In|].
      destruct Hstr as [->|[-> Hlow]].
      - by rewrite String.eqb_refl.
      - rewrite Hlow, String.eqb_refl. apply orb_true_r. }
    congruence.
Qed.

(** X4: a string passes [StringLenBetween] exactly when its length in
    bytes lies within the inclusive bounds. *)
Theorem StringLenBetween_accepts_iff (min max : Z) (v k : string) :
  accepts (StringLenBetween min max (VString v) k) ↔ min ≤ len v ≤ max.
Proof.
  unfold accepts, StringLenBetween.
  destruct (Z.ltb_spec (len v) min), (Z.gtb_spec (len v) max); simpl;
    split; try done; lia.
Qed.

(** X5: with an empty range of bounds ([max < min]) the three bounded
    validators reject every value, whatever its type. *)
Theorem empty_bounds_reject_everything (min max : Z) (v : value) (k : string) :
  max < min →
  ¬ accepts (IntBetween min max v k)
  ∧ ¬ accepts (StringLenBetween min max v k)
  ∧ ¬ accepts (CIDRNetwork min max v k).
Proof.
  intros Hempty. unfold accepts. split_and!.
  - unfold IntBetween. destruct v as [| |n| | |]; try done.
    destruct (Z.ltb_spec n min), (Z.gtb_spec n max); simpl; try done. lia.
  - unfold StringLenBetween. destruct v as [| | |s| |]; try done.
    destruct (Z.ltb_spec (len s) min), (Z.gtb_spec (len s) max); simpl; try done. lia.
  - unfold CIDRNetwork. destruct v as [| | |s| |]; try done.
    destruct (Net.ParseCIDR s) as [[ip ipnet]|err]; [|done].
    destruct (Net.Mask_Size (Net.Mask ipnet)) as [sigbits bits].
    destruct (Z.ltb_spec sigbits min), (Z.gtb_spec sigbits max); simpl;
      try lia; intros [= Hes]; by apply app_nil in Hes as [_ ?].
Qed.

(** X6: none of the nine validators ever returns a warning. *)
Theorem validators_return_no_warnings (min max : Z) (valid : list string)
    (ignoreCase : bool) :
  noWarnings (IntBetween min max) ∧ noWarnings (IntAtLeast min)
  ∧ noWarnings (IntAtMost max) ∧ noWarnings (StringInSlice valid ignoreCase)
  ∧ noWarnings (StringLenBetween min max) ∧ noWarnings (CIDRNetwork min max)
  ∧ noWarnings ValidateJsonString ∧ noWarnings ValidateListUniqueStrings
  ∧ noWarnings ValidateRegexp.
Proof.
  unfold noWarnings. split_and!; intros v k ws es.
  - unfold IntBetween. destruct v; try (by intros [= <- _]).
    destruct (_ || _); by intros [= <- _].
  - unfold IntAtLeast. destruct v; try (by intros [= <- _]).
    destruct (_ <? _); by intros [= <- _].
  - unfold IntAtMost. destruct v; try (by intros [= <- _]).
    destruct (_ >? _); by intros [= <- _].
  - unfold StringInSlice. destruct v; try (by intros [= <- _]).
    destruct (existsb _ _); by intros [= <- _].
  - unfold StringLenBetween. destruct v; try (by intros [= <- _]).
    destruct (_ || _); by intros [= <- _].
  - unfold CIDRNetwork. destruct v; try (by intros [= <- _]).
    destruct (Net.ParseCIDR s) as [[ip ipnet]|err]; [|by intros [= <- _]].
    destruct (Net.Mask_Size _). by intros [= <- _].
  - unfold ValidateJsonString.
    destruct (NormalizeJsonString v) as [[text [e|]]|]; simpl; try done;
      by intros [= <- _].
  - unfold ValidateListUniqueStrings. destruct (assertList v) as [l|]; [|done]. simpl.
    destruct (unique_outer k l l 0 []); [|done]. by intros [= <- _].
  - unfold ValidateRegexp. destruct (assertString v) as [str|]; [|done]. simpl.
    destruct (regexpCompile str); by intros [= <- _].
Qed.

Lemma strings_or_not (l : list value) :
  (∃ strs : list string, l = VString <$> strs) ∨ (∃ v, v ∈ l ∧ isString v = false).
Proof.
  induction l as [|v l [[strs ->]|(w & Hw & Hns)]].
  - left. by exists [].
  - destruct v as [| | |str| |];
      try (right; eexists; split; [by left|done]).
    left. by exists (str :: strs).
  - right. exists w. split; [by right|done].
Qed.

Lemma unique_inner_panics (k : string) (n1 : nat) (v1 : value) (rest : list value) :
  ∀ (n2 : nat) (errors : list error),
    rest ≠ [] →
    (isString v1 = false ∨ ∃ v, v ∈ rest ∧ isString v = false) →
    unique_inner k n1 v1 rest n2 errors = Panicked.
Proof.
  induction rest as [|v2 rest IH]; intros n2 errors Hne Hbad; [done|].
  simpl. destruct v1 as [| | |s1| |]; try done. simpl.
  destruct v2 as [| | |s2| |]; try done. simpl.
  destruct Hbad as [?|(w & Hw & Hns)]; [done|].
  apply elem_of_cons in Hw as [->|Hw]; [done|].
  apply IH; [by intros ->; apply elem_of_nil in Hw|]. right. by exists w.
Qed.

(** X7: handed a list, [ValidateListUniqueStrings] panics exactly when the
    list has an element that is not a string; in particular it returns on
    the empty list and on every list of strings. *)
Theorem ValidateListUniqueStrings_panics_iff (l : list value) (k : string) :
  ValidateListUniqueStrings (VList l) k = Panicked
  ↔ ∃ v, v ∈ l ∧ isString v = false.
Proof.
  split.
  - intros Hpanic. destruct (strings_or_not l) as [[strs ->]|?]; [|done].
    by rewrite ValidateListUniqueStrings_strings in Hpanic.
  - intros (w & Hw & Hns). unfold ValidateListUniqueStrings. cbn [assertList obind].
    destruct l as [|v1 rest]; [by apply elem_of_nil in Hw|].
    cbn [unique_outer]. rewrite unique_inner_panics; [done|done|]. right. by exists w.
Qed.

(** X8: whether a list of strings passes the uniqueness validator does not
    depend on the order of its elements. *)
Theorem ValidateListUniqueStrings_order_independent (l l' : list string) (k : string) :
  l ≡ₚ l' →
  (accepts (ValidateListUniqueStrings (VList (VString <$> l)) k)
   ↔ accepts (ValidateListUniqueStrings (VList (VString <$> l')) k)).
Proof.
  intros Hperm. unfold accepts. rewrite !ValidateListUniqueStrings_strings.
  assert (∀ m : list string,
            Returned ([] : list string,
                      (λ t, Errorf (duplicate_msg k t.2)) <$> duplicatePairs m)
            = Returned ([], []) ↔ NoDup m) as Hnodup.
  { intros m. rewrite <- duplicatePairs_nil_iff. split.
    - intros [= Hnil]. by apply fmap_nil_inv in Hnil.
    - by intros ->. }
  rewrite !Hnodup. by rewrite Hperm.
Qed.

(** X9: on a list of strings the uniqueness validator returns twice as
    many errors as there are unordered pairs of positions holding equal
    strings; the number of errors is even and never exactly one. *)
Theorem ValidateListUniqueStrings_error_count (l : list string) (k : string) :
  ∃ es, ValidateListUniqueStrings (VList (VString <$> l)) k = Returned ([], es)
        ∧ length es = (2 * unorderedDuplicates l)%nat
        ∧ length es ≠ 1%nat.
Proof.
  eexists. split; [apply ValidateListUniqueStrings_strings|].
  rewrite length_fmap, length_duplicatePairs. split; [done|lia].
Qed.

End Extras.
End ValidationExtras.

(** * Further properties of the Job resource *)
Module JobResourceExtras.
Import JobResource JobTerms JobCreate JobResourceFacts.

Section Extras.
Context `{Helpers}.

Lemma Exists_unfold (conn : Clientset) (st : State) :
  resourceKubernetesJobExists conn st =
  match idParts (Id (rd st)) with
  | inr err => Returned ((false, Some err), st)
  | inl (namespace, name) =>
      Returned (match Jobs_Get conn (length (calls st)) namespace name with
                | inr err => if isNotFound err then (false, None) else (true, Some err)
                | inl _ => (true, None)
                end, mkState (rd st) (calls st ++ [CallGet namespace name]))
  end.
Proof.
  unfold resourceKubernetesJobExists, bind, getData, remoteGet, ret.
  destruct (idParts (Id (rd st))) as [[namespace name]|err]; [|by destruct st].
  destruct (Jobs_Get conn (length (calls st)) namespace name) as [job|err]; [done|].
  by destruct (isNotFound err).
Qed.

(** X10: [Exists] always returns, never changes the resource data, and
    issues no remote call when the identifier does not parse (it then
    answers false together with the parse error) and exactly one get
    otherwise. *)
Theorem Exists_reads_only (conn : Clientset) (st : State) :
  ∃ (b : bool) (err : option error) (st' : State),
    resourceKubernetesJobExists conn st = Returned ((b, err), st')
    ∧ rd st' = rd st
    ∧ match idParts (Id (rd st)) with
      | inr e => calls st' = calls st ∧ b = false ∧ err = Some e
      | inl (namespace, name) => calls st' = calls st ++ [CallGet namespace name]
      end.
Proof.
  rewrite Exists_unfold.
  destruct (idParts (Id (rd st))) as [[namespace name]|e].
  - destruct (Jobs_Get conn (length (calls st)) namespace name) as [job|e];
      [|destruct (isNotFound e)]; by eexists _, _, _.
  - by eexists _, _, _.
Qed.

(** X11: once the identifier parses, [Exists] answers false exactly when
    the get is answered with a 404 status error, and it reports no error
    exactly when the get is answered with a 404 status error or with the
    object. *)
Theorem Exists_answer (conn : Clientset) (st : State) (namespace name : string) :
  idParts (Id (rd st)) = inl (namespace, name) →
  ∃ (b : bool) (err : option error) (st' : State),
    resourceKubernetesJobExists conn st = Returned ((b, err), st')
    ∧ (b = false
       ↔ ∃ msg, Jobs_Get conn (length (calls st)) namespace name = inr (StatusError 404 msg))
    ∧ (err = None
       ↔ b = false ∨ ∃ job, Jobs_Get conn (length (calls st)) namespace name = inl job).
Proof.
  intros Hid. rewrite Exists_unfold, Hid.
  destruct (Jobs_Get conn (length (calls st)) namespace name) as [job|e] eqn:Hget.
  - eexists _, _, _. split; [done|]. split.
    + split; [done|]. by intros [msg ?].
    + split; [intros _; right; by exists job|done].
  - destruct (isNotFound e) eqn:Hnf.
    + apply isNotFound_iff in Hnf as [msg ->].
      eexists _, _, _. split; [done|]. split.
      * split; [intros _; by exists msg|done].
      * split; [by left|done].
    + eexists _, _, _. split; [done|]. split.
      * split; [done|]. intros [msg [= ->]]. done.
      * split; [done|]. intros [?|[job ?]]; done.
Qed.

(** X12: one poll of the delete-confirmation loop issues exactly one get
    and leaves the resource data alone.  It reports success exactly when
    the get is answered with a 404 status error, asks for a retry exactly
    when the job is still readable, and otherwise stops the loop with the
    very error the get returned (a status error with another code
    included). *)
Theorem deletePoll_classification (conn : Clientset) (namespace name : string) (st : State) :
  let answer := Jobs_Get conn (length (calls st)) namespace name in
  ∃ r : option RetryError,
    deletePoll conn namespace name st
    = Returned (r, mkState (rd st) (calls st ++ [CallGet namespace name]))
    ∧ (r = None ↔ ∃ msg, answer = inr (StatusError 404 msg))
    ∧ ((∃ rerr, r = Some rerr ∧ Retryable rerr = true) ↔ ∃ job, answer = inl job)
    ∧ (∀ rerr, r = Some rerr → Retryable rerr = false → answer = inr (Err rerr)).
Proof.
  intros answer. subst answer. rewrite deletePoll_step.
  unfold pollOutcome, afterGets. rewrite Nat.add_0_r. simpl.
  destruct (Jobs_Get conn (length (calls st)) namespace name) as [job|e] eqn:Hget.
  - eexists. split; [done|]. split_and!.
    + split; [done|]. by intros [msg ?].
    + split; [intros _; by exists job|]. intros _. by eexists.
    + intros rerr [= <-]. done.
  - destruct (isNotFound e) eqn:Hnf.
    + apply isNotFound_iff in Hnf as [msg ->].
      eexists. split; [done|]. split_and!.
      * split; [intros _; by exists msg|done].
      * split; [by intros (rerr & ? & _)|by intros [job ?]].
      * done.
    + eexists. split; [done|]. split_and!.
      * split; [done|]. intros [msg [= ->]]. done.
      * split; [by intros (rerr & [= <-] & ?)|by intros [job ?]].
      * by intros rerr [= <-] _.
Qed.

Lemma projectJob_unfold (job : batchv1_Job) (st : State) :
  projectJob job st =
  let m := flattenMetadata (ObjectMeta job) in
  let st1 := mkState (mkResourceData (id (rd st)) (config (rd st)) (changes (rd st))
                        (<["metadata" := m]> (attrs (rd st)))) (calls st) in
  match setCheck "metadata" m with
  | Some e => Returned (Some e, st)
  | None =>
      match flattenJobSpec (Spec job) with
      | inr e => Returned (Some e, st1)
      | inl js =>
          match setCheck "spec" js with
          | Some e => Returned (Some e, st1)
          | None =>
              Returned (None,
                mkState (mkResourceData (id (rd st)) (config (rd st)) (changes (rd st))
                           (<["spec" := js]> (<["metadata" := m]> (attrs (rd st)))))
                        (calls st))
          end
      end
  end.
Proof.
  unfold projectJob, dSet, bind, ret, modifyData. simpl.
  destruct (setCheck "metadata" (flattenMetadata (ObjectMeta job))); [done|].
  destruct (flattenJobSpec (Spec job)) as [js|e]; [|done].
  by destruct (setCheck "spec" js).
Qed.

(** What projecting a job can change: nothing but the stored metadata and
    spec. *)
Lemma projectJob_effects (job : batchv1_Job) (st st' : State) (err : option error) :
  projectJob job st = Returned (err, st') →
  calls st' = calls st ∧ id (rd st') = id (rd st) ∧ config (rd st') = config (rd st)
  ∧ changes (rd st') = changes (rd st)
  ∧ ∀ key, key ≠ "metadata" → key ≠ "spec" → attrs (rd st') !! key = attrs (rd st) !! key.
Proof.
  rewrite projectJob_unfold. simpl.
  destruct (setCheck "metadata" _); [by intros [= <- <-]|].
  destruct (flattenJobSpec (Spec job)) as [js|e].
  - destruct (setCheck "spec" js); intros [= <- <-]; simpl; split_and!; try done;
      intros key Hm Hs; by rewrite ?lookup_insert_ne by done.
  - intros [= <- <-]; simpl; split_and!; try done.
    intros key Hm Hs. by rewrite lookup_insert_ne by done.
Qed.

Lemma Read_keeps_id (conn : Clientset) (st st' : State) (err : option error) :
  resourceKubernetesJobRead conn st = Returned (err, st') → id (rd st') = id (rd st).
Proof.
  rewrite Read_unfold.
  destruct (idParts (Id (rd st))) as [[namespace name]|e]; [|by intros [= <- <-]].
  simpl. destruct (Jobs_Get conn (length (calls st)) namespace name) as [job|e];
    [|by intros [= <- <-]].
  destruct (removeGeneratedLabels (rd st) job) as [job'|]; [|done].
  by intros (_ & Hi & _)%projectJob_effects.
Qed.

(** X13: a Read that returns without error has parsed the identifier, has
    been handed a job by the remote get, and has stored exactly the
    flattened metadata and spec of that job after label normalization; in
    particular a 404 answer never makes Read succeed. *)
Theorem Read_success_sound (conn : Clientset) (st st' : State) :
  resourceKubernetesJobRead conn st = Returned (None, st') →
  ∃ (namespace name : string) (job job' : batchv1_Job) (js : value),
    idParts (Id (rd st)) = inl (namespace, name)
    ∧ Jobs_Get conn (length (calls st)) namespace name = inl job
    ∧ removeGeneratedLabels (rd st) job = Returned job'
    ∧ flattenJobSpec (Spec job') = inl js
    ∧ attrs (rd st')
      = <["spec" := js]> (<["metadata" := flattenMetadata (ObjectMeta job')]> (attrs (rd st)))
    ∧ calls st' = calls st ++ [CallGet namespace name].
Proof.
  rewrite Read_unfold.
  destruct (idParts (Id (rd st))) as [[namespace name]|e]; [|done].
  simpl. destruct (Jobs_Get conn (length (calls st)) namespace name) as [job|e] eqn:Hget;
    [|done].
  destruct (removeGeneratedLabels (rd st) job) as [job'|] eqn:Hnorm; [|done].
  rewrite projectJob_unfold. simpl.
  destruct (setCheck "metadata" _); [done|].
  destruct (flattenJobSpec (Spec job')) as [js|e] eqn:Hjs; [|done].
  destruct (setCheck "spec" js); [done|].
  intros [= <-]. by exists namespace, name, job, job', js.
Qed.

(** X14: whenever Read returns, it has left the identifier, the
    configuration and the change flags as they were, has changed no stored
    attribute other than [metadata] and [spec], and has issued at most one
    remote call, a get. *)
Theorem Read_effects (conn : Clientset) (st st' : State) (err : option error) :
  resourceKubernetesJobRead conn st = Returned (err, st') →
  id (rd st') = id (rd st) ∧ config (rd st') = config (rd st)
  ∧ changes (rd st') = changes (rd st)
  ∧ (∀ key, key ≠ "metadata" → key ≠ "spec" → attrs (rd st') !! key = attrs (rd st) !! key)
  ∧ (calls st' = calls st ∨ ∃ namespace name, calls st' = calls st ++ [CallGet namespace name]).
Proof.
  rewrite Read_unfold.
  destruct (idParts (Id (rd st))) as [[namespace name]|e]; [|intros [= <- <-]; auto 6].
  simpl. destruct (Jobs_Get conn (length (calls st)) namespace name) as [job|e];
    [|intros [= <- <-]; simpl; split_and!; try done; right; by eexists _, _].
  destruct (removeGeneratedLabels (rd st) job) as [job'|]; [|done].
  intros (Hc & Hi & Hcfg & Hch & Hattrs)%projectJob_effects. simpl in *.
  split_and!; try done. right. by eexists _, _.
Qed.

(** X15: for a user who has not opted into manual selector control and a
    job that has a selector, the label normalization of Read removes
    [controller-uid] from the selector's match labels and keeps every other
    match label, [job-name] included; name, namespace, annotations and the
    other spec fields are left as they were. *)
Theorem removeGeneratedLabels_selector (d : ResourceData) (job : batchv1_Job)
    (sel : metav1_LabelSelector) :
  manualSelectorOptedIn d = false →
  Selector (Spec job) = Some sel →
  ∃ (job' : batchv1_Job) (sel' : metav1_LabelSelector),
    removeGeneratedLabels d job = Returned job'
    ∧ Selector (Spec job') = Some sel'
    ∧ MatchLabels sel' !! "controller-uid" = None
    ∧ (∀ key, key ≠ "controller-uid" → MatchLabels sel' !! key = MatchLabels sel !! key)
    ∧ Name (ObjectMeta job') = Name (ObjectMeta job)
    ∧ Namespace (ObjectMeta job') = Namespace (ObjectMeta job)
    ∧ Annotations (ObjectMeta job') = Annotations (ObjectMeta job)
    ∧ Parallelism (Spec job') = Parallelism (Spec job)
    ∧ Completions (Spec job') = Completions (Spec job)
    ∧ ManualSelector (Spec job') = ManualSelector (Spec job).
Proof.
  intros Hopt Hsel. rewrite removeGeneratedLabels_unfold, Hopt, Hsel.
  eexists _, _. split; [done|]. split; [done|]. simpl. split_and!; try done.
  - apply lookup_delete_eq.
  - intros key Hkey. by rewrite lookup_delete_ne.
Qed.

Lemma withoutGeneratedLabels_idemp (labels : gmap string string) :
  withoutGeneratedLabels (withoutGeneratedLabels labels) = withoutGeneratedLabels labels.
Proof.
  apply map_eq. intros key. rewrite !withoutGeneratedLabels_lookup. by case_decide.
Qed.

(** X16: the label normalization of Read is idempotent: applied to a job
    it has produced, it returns that job unchanged.  A second read of an
    unchanged object therefore projects the same state. *)
Theorem removeGeneratedLabels_idempotent (d : ResourceData) (job job' : batchv1_Job) :
  removeGeneratedLabels d job = Returned job' →
  removeGeneratedLabels d job' = Returned job'.
Proof.
  rewrite !removeGeneratedLabels_unfold.
  destruct (manualSelectorOptedIn d); [by intros [= ->]|].
  destruct (Selector (Spec job)) as [sel|]; [|done].
  intros [= <-]. simpl. by rewrite withoutGeneratedLabels_idemp, delete_delete_eq.
Qed.

(** X17: the projection of Read is not atomic.  When the metadata passes
    the schema check but the spec then fails to flatten or fails its own
    check, the error is returned although the metadata has already been
    stored; when the metadata itself fails its check, nothing is stored. *)
Theorem projectJob_partial_write (job : batchv1_Job) (st : State) (e : error) :
  let m := flattenMetadata (ObjectMeta job) in
  (setCheck "metadata" m = Some e → projectJob job st = Returned (Some e, st))
  ∧ (setCheck "metadata" m = None →
     (flattenJobSpec (Spec job) = inr e
      ∨ ∃ js, flattenJobSpec (Spec job) = inl js ∧ setCheck "spec" js = Some e) →
     ∃ st', projectJob job st = Returned (Some e, st')
            ∧ attrs (rd st') = <["metadata" := m]> (attrs (rd st))).
Proof.
  intros m. subst m. rewrite projectJob_unfold. simpl. split.
  - by intros ->.
  - intros -> [->|(js & -> & ->)]; by eexists.
Qed.

Lemma Update_unfold (conn : Clientset) (st : State) :
  resourceKubernetesJobUpdate conn st =
  match idParts (Id (rd st)) with
  | inr err => Returned (Some err, st)
  | inl (namespace, name) =>
      match updateOps (rd st) with
      | inr err => Returned (Some err, st)
      | inl ops =>
          match MarshalJSON ops with
          | inr msg =>
              Returned (Some (Errorf ("Failed to marshal update operations: " +:+ msg)), st)
          | inl data =>
              let st1 := mkState (rd st) (calls st ++ [CallPatch namespace name data]) in
              match Jobs_Patch conn (length (calls st)) namespace name data with
              | inr err => Returned (Some err, st1)
              | inl out =>
                  resourceKubernetesJobRead conn
                    (mkState (SetId (buildId (ObjectMeta out)) (rd st)) (calls st1))
              end
          end
      end
  end.
Proof.
  unfold resourceKubernetesJobUpdate, bind, getData, remotePatch, ret, modifyData.
  destruct (idParts (Id (rd st))) as [[namespace name]|err]; [|by destruct st].
  destruct (updateOps (rd st)) as [ops|err]; [|by destruct st].
  destruct (MarshalJSON ops) as [data|msg]; [|by destruct st].
  by destruct (Jobs_Patch conn (length (calls st)) namespace name data).
Qed.

(** X18: an update changes the resource data only after a successful
    remote patch: whenever it returns, either the resource data is what it
    was (this covers an identifier that does not parse, a spec patch that
    cannot be computed, an encoding failure and a failed patch call), or
    the patch call succeeded and the identifier is the one built from the
    object it returned. *)
Theorem Update_changes_data_only_after_patch (conn : Clientset) (st st' : State)
    (err : option error) :
  resourceKubernetesJobUpdate conn st = Returned (err, st') →
  rd st' = rd st
  ∨ ∃ (namespace name data : string) (out : batchv1_Job),
      idParts (Id (rd st)) = inl (namespace, name)
      ∧ Jobs_Patch conn (length (calls st)) namespace name data = inl out
      ∧ id (rd st') = buildId (ObjectMeta out).
Proof.
  rewrite Update_unfold.
  destruct (idParts (Id (rd st))) as [[namespace name]|e]; [|intros [= <- <-]; auto].
  destruct (updateOps (rd st)) as [ops|e]; [|intros [= <- <-]; auto].
  destruct (MarshalJSON ops) as [data|msg]; [|intros [= <- <-]; auto].
  simpl. destruct (Jobs_Patch conn (length (calls st)) namespace name data) as [out|e] eqn:Hp;
    [|intros [= <- <-]; auto].
  intros Hid%Read_keeps_id. right. by exists namespace, name, data, out.
Qed.

(** X19: when the remote patch call succeeds, the update behaves as Read
    run on the resource whose identifier has been replaced by the one built
    from the returned object, after the single patch call. *)
Theorem Update_success_runs_Read (conn : Clientset) (st : State)
    (namespace name data : string) (ops : PatchOperations) (out : batchv1_Job) :
  idParts (Id (rd st)) = inl (namespace, name) →
  updateOps (rd st) = inl ops →
  MarshalJSON ops = inl data →
  Jobs_Patch conn (length (calls st)) namespace name data = inl out →
  resourceKubernetesJobUpdate conn st
  = resourceKubernetesJobRead conn
      (mkState (SetId (buildId (ObjectMeta out)) (rd st))
               (calls st ++ [CallPatch namespace name data])).
Proof. intros Hid Hops Hdata Hpatch. by rewrite Update_unfold, Hid, Hops, Hdata, Hpatch. Qed.

(** X20: whenever an update returns, it has left the configuration and the
    change flags as they were, and the remote calls it has issued are none,
    or one patch, or one patch followed by one get. *)
Theorem Update_remote_calls (conn : Clientset) (st st' : State) (err : option error) :
  resourceKubernetesJobUpdate conn st = Returned (err, st') →
  config (rd st') = config (rd st) ∧ changes (rd st') = changes (rd st)
  ∧ (calls st' = calls st
     ∨ (∃ namespace name data,
          calls st' = calls st ++ [CallPatch namespace name data])
     ∨ (∃ namespace name data namespace' name',
          calls st' = calls st ++ [CallPatch namespace name data; CallGet namespace' name'])).
Proof.
  rewrite Update_unfold.
  destruct (idParts (Id (rd st))) as [[namespace name]|e]; [|intros [= <- <-]; auto].
  destruct (updateOps (rd st)) as [ops|e]; [|intros [= <- <-]; auto].
  destruct (MarshalJSON ops) as [data|msg]; [|intros [= <- <-]; auto].
  simpl. destruct (Jobs_Patch conn (length (calls st)) namespace name data) as [out|e].
  - rewrite Read_unfold. simpl.
    destruct (idParts (buildId (ObjectMeta out))) as [[namespace' name']|e].
    + destruct (Jobs_Get conn (length (calls st ++ [CallPatch namespace name data]))
                  namespace' name') as [job|e].
      * destruct (removeGeneratedLabels (SetId (buildId (ObjectMeta out)) (rd st)) job)
          as [job'|]; [|done].
        intros (Hc & _ & Hcfg & Hch & _)%projectJob_effects. simpl in *.
        split_and!; [done..|]. right. right.
        exists namespace, name, data, namespace', name'.
        by rewrite Hc, <- app_assoc.
      * intros [= <- <-]. simpl. split_and!; [done..|]. right. right.
        exists namespace, name, data, namespace', name'. by rewrite <- app_assoc.
    + intros [= <- <-]. simpl. split_and!; [done..|]. right. left. by eexists _, _, _.
  - intros [= <- <-]. simpl. split_and!; [done..|]. right. left. by eexists _, _, _.
Qed.

(** X21: a delete invocation always returns.  It never changes the
    configuration, the change flags or the stored attributes, and the
    identifier is afterwards either what it was or empty.  If the
    identifier does not parse it issues no remote call; if the remote
    delete fails, be it with a 404 status error, it returns that error
    after this one call and does not poll; otherwise the delete call is
    followed by at least one get, and by gets only, all for the same
    namespace and name. *)
Theorem Delete_remote_calls (conn : Clientset) (st : State) :
  ∃ (err : option error) (st' : State),
    resourceKubernetesJobDelete conn st = Returned (err, st')
    ∧ config (rd st') = config (rd st) ∧ changes (rd st') = changes (rd st)
    ∧ attrs (rd st') = attrs (rd st)
    ∧ (id (rd st') = id (rd st) ∨ id (rd st') = "")
    ∧ match idParts (Id (rd st)) with
      | inr e => err = Some e ∧ calls st' = calls st
      | inl (namespace, name) =>
          match Jobs_Delete conn (length (calls st)) namespace name with
          | Some e => err = Some e ∧ calls st' = calls st ++ [CallDelete namespace name]
          | None =>
              ∃ n : nat,
                calls st' = calls st ++ CallDelete namespace name
                                        :: replicate (S n) (CallGet namespace name)
          end
      end.
Proof.
  rewrite Delete_unfold.
  destruct (idParts (Id (rd st))) as [[namespace name]|e]; [|by eexists _, _; auto 8].
  simpl. destruct (Jobs_Delete conn (length (calls st)) namespace name) as [e|];
    [by eexists _, _; auto 8|].
  unfold Retry.
  destruct (Retry_loop_deletePoll conn namespace name (1 * minute) 0 0%nat
              (mkState (rd st) (calls st ++ [CallDelete namespace name])))
    as (n & _ & _ & [(e & _ & ->)|(_ & _ & ->)]).
  - destruct (verdict e); eexists _, _; (split; [done|]); simpl;
      split_and!; auto; exists n; by rewrite <- app_assoc.
  - eexists _, _. split; [done|]. simpl.
    split_and!; auto. exists n. by rewrite <- app_assoc.
Qed.

End Extras.

Section CreateExtras.
Context `{Helpers} `{CreateHelpers}.

(** X22: when the spec of the configuration does not expand, create
    returns the expansion error without running the remote create call and
    without changing anything. *)
Theorem Create_spec_error (conn : Clientset)
    (remoteCreate : string → batchv1_Job → M (batchv1_Job + error)) (st : State)
    (metadataList specList : list value) (e : error) :
  dGet (rd st) "metadata" = VList metadataList →
  dGet (rd st) "spec" = VList specList →
  expandJobSpec specList = inr e →
  resourceKubernetesJobCreate conn remoteCreate st = Returned (Some e, st).
Proof.
  intros Hm Hs He.
  unfold resourceKubernetesJobCreate, bind, getData, lift, ret.
  rewrite Hm. simpl. rewrite Hs. simpl. rewrite He. by destruct st.
Qed.

(** X23: after a remote create call that ran from the untouched state,
    create returns the call's error as it is, leaving the identifier as the
    call left it; on success it sets the identifier built from the returned
    object and then behaves as Read. *)
Theorem Create_after_remote_call (conn : Clientset)
    (remoteCreate : string → batchv1_Job → M (batchv1_Job + error)) (st st1 : State)
    (metadataList specList : list value) (spec : batchv1_JobSpec)
    (r : batchv1_Job + error) :
  dGet (rd st) "metadata" = VList metadataList →
  dGet (rd st) "spec" = VList specList →
  expandJobSpec specList = inl spec →
  remoteCreate (Namespace (expandMetadata metadataList))
    (mkJob (expandMetadata metadataList) spec) st = Returned (r, st1) →
  resourceKubernetesJobCreate conn remoteCreate st =
  match r with
  | inr e => Returned (Some e, st1)
  | inl out =>
      resourceKubernetesJobRead conn
        (mkState (SetId (buildId (ObjectMeta out)) (rd st1)) (calls st1))
  end.
Proof.
  intros Hm Hs He Hcreate.
  unfold resourceKubernetesJobCreate, bind, getData, lift, ret, modifyData.
  rewrite Hm. simpl. rewrite Hs. simpl. rewrite He, Hcreate. by destruct r.
Qed.

End CreateExtras.
End JobResourceExtras.

(** * Closed instances of the further properties *)
Module ExtrasExamples.
Import Validation ValidationExtras JobResource JobTerms JobCreate JobResourceExtras.

#[local] Existing Instance exampleGoStd.

Lemma empty_bounds_reject_everything_witness :
  1 < 10
  ∧ ¬ accepts (IntBetween 10 1 (VInt 5) "replicas")
  ∧ ¬ accepts (StringLenBetween 10 1 (VInt 5) "replicas")
  ∧ ¬ accepts (CIDRNetwork 10 1 (VInt 5) "replicas").
Proof.
  assert (1 < 10) as Hlt by lia.
  split; [exact Hlt|]. exact (empty_bounds_reject_everything 10 1 (VInt 5) "replicas" Hlt).
Defined.

Lemma ValidateListUniqueStrings_order_independent_witness :
  ["a"; "b"] ≡ₚ ["b"; "a"]
  ∧ (accepts (ValidateListUniqueStrings (VList (VString <$> ["a"; "b"])) "args")
     ↔ accepts (ValidateListUniqueStrings (VList (VString <$> ["b"; "a"])) "args")).
Proof.
  assert (["a"; "b"] ≡ₚ ["b"; "a"]) as Hperm by apply perm_swap.
  split; [exact Hperm|].
  exact (ValidateListUniqueStrings_order_independent ["a"; "b"] ["b"; "a"] "args" Hperm).
Defined.

Lemma Exists_answer_witness :
  @idParts exampleHelpers (Id (rd piState)) = inl ("default", "pi")
  ∧ ∃ (b : bool) (err : option error) (st' : State),
      @resourceKubernetesJobExists exampleHelpers goneConn piState = Returned ((b, err), st')
      ∧ (b = false
         ↔ ∃ msg, Jobs_Get goneConn (length (calls piState)) "default" "pi"
                  = inr (StatusError 404 msg))
      ∧ (err = None
         ↔ b = false
           ∨ ∃ job, Jobs_Get goneConn (length (calls piState)) "default" "pi" = inl job).
Proof.
  assert (@idParts exampleHelpers (Id (rd piState)) = inl ("default", "pi")) as Hid
    by reflexivity.
  split; [exact Hid|].
  exact (@Exists_answer exampleHelpers goneConn piState "default" "pi" Hid).
Defined.

Lemma Read_success_sound_witness :
  @resourceKubernetesJobRead exampleHelpers selectorJobConn piState
  = Returned (None,
      mkState (mkResourceData "pi" ∅ (λ _, false)
                 (<["spec" := VNil]> (<["metadata" := VString "pi"]> ∅)))
              [CallGet "default" "pi"])
  ∧ ∃ (namespace name : string) (job job' : batchv1_Job) (js : value),
      @idParts exampleHelpers (Id (rd piState)) = inl (namespace, name)
      ∧ Jobs_Get selectorJobConn (length (calls piState)) namespace name = inl job
      ∧ removeGeneratedLabels (rd piState) job = Returned job'
      ∧ @flattenJobSpec exampleHelpers (Spec job') = inl js
      ∧ <["spec" := VNil]> (<["metadata" := VString "pi"]> ∅)
        = <["spec" := js]>
            (<["metadata" := @flattenMetadata exampleHelpers (ObjectMeta job')]>
               (attrs (rd piState)))
      ∧ [CallGet "default" "pi"] = calls piState ++ [CallGet namespace name].
Proof.
  assert (@resourceKubernetesJobRead exampleHelpers selectorJobConn piState
          = Returned (None,
              mkState (mkResourceData "pi" ∅ (λ _, false)
                         (<["spec" := VNil]> (<["metadata" := VString "pi"]> ∅)))
                      [CallGet "default" "pi"])) as Hread
    by (vm_compute; reflexivity).
  split; [exact Hread|].
  exact (@Read_success_sound exampleHelpers selectorJobConn piState _ Hread).
Defined.

Lemma Read_effects_witness :
  @resourceKubernetesJobRead exampleHelpers goneConn piState
  = Returned (Some (StatusError 404 "jobs.batch pi not found"),
              mkState (rd piState) [CallGet "default" "pi"])
  ∧ id (rd (mkState (rd piState) [CallGet "default" "pi"])) = id (rd piState).
Proof.
  assert (@resourceKubernetesJobRead exampleHelpers goneConn piState
          = Returned (Some (StatusError 404 "jobs.batch pi not found"),
                      mkState (rd piState) [CallGet "default" "pi"])) as Hread
    by reflexivity.
  split; [exact Hread|].
  exact (proj1 (@Read_effects exampleHelpers goneConn piState _ _ Hread)).
Defined.

Lemma removeGeneratedLabels_selector_witness :
  manualSelectorOptedIn (rd piState) = false
  ∧ Selector (Spec labelledJob)
    = Some (mkLabelSelector (<["controller-uid" := "8d5c"]> {["job-name" := "pi"]}))
  ∧ ∃ (job' : batchv1_Job) (sel' : metav1_LabelSelector),
      removeGeneratedLabels (rd piState) labelledJob = Returned job'
      ∧ Selector (Spec job') = Some sel'
      ∧ MatchLabels sel' !! "controller-uid" = None
      ∧ MatchLabels sel' !! "job-name" = Some "pi"
      ∧ Name (ObjectMeta job') = "pi".
Proof.
  assert (manualSelectorOptedIn (rd piState) = false) as Hopt by reflexivity.
  assert (Selector (Spec labelledJob)
          = Some (mkLabelSelector (<["controller-uid" := "8d5c"]> {["job-name" := "pi"]})))
    as Hsel by reflexivity.
  split; [exact Hopt|]. split; [exact Hsel|].
  destruct (removeGeneratedLabels_selector (rd piState) labelledJob _ Hopt Hsel)
    as (job' & sel' & Hret & Hsel' & Huid & Hkept & Hname & _).
  exists job', sel'. split; [exact Hret|]. split; [exact Hsel'|]. split; [exact Huid|].
  split; [|exact Hname].
  assert ("job-name" ≠ "controller-uid") as Hne by discriminate.
  assert (<["controller-uid" := "8d5c"]> ({["job-name" := "pi"]} : gmap string string)
          !! "job-name" = Some "pi") as Hjn by (vm_compute; reflexivity).
  exact (eq_trans (Hkept "job-name" Hne) Hjn).
Defined.

Lemma removeGeneratedLabels_idempotent_witness :
  removeGeneratedLabels (rd piState) labelledJob = Returned normalizedLabelledJob
  ∧ Labels (ObjectMeta labelledJob) !! "controller-uid" = Some "8d5c"
  ∧ Labels (ObjectMeta normalizedLabelledJob) !! "controller-uid" = None
  ∧ removeGeneratedLabels (rd piState) normalizedLabelledJob
    = Returned normalizedLabelledJob.
Proof.
  assert (removeGeneratedLabels (rd piState) labelledJob = Returned normalizedLabelledJob)
    as Hnorm by (vm_compute; reflexivity).
  split; [exact Hnorm|].
  split; [vm_compute; reflexivity|]. split; [vm_compute; reflexivity|].
  exact (removeGeneratedLabels_idempotent (rd piState) labelledJob normalizedLabelledJob
           Hnorm).
Defined.

Lemma Update_changes_data_only_after_patch_witness :
  @resourceKubernetesJobUpdate patchingHelpers (patchConn (inr (ErrorString "conflict")))
    piState
  = Returned (Some (ErrorString "conflict"),
              mkState (rd piState) [CallPatch "default" "pi" "[]"])
  ∧ (rd (mkState (rd piState) [CallPatch "default" "pi" "[]"]) = rd piState
     ∨ ∃ (namespace name data : string) (out : batchv1_Job),
         @idParts patchingHelpers (Id (rd piState)) = inl (namespace, name)
         ∧ Jobs_Patch (patchConn (inr (ErrorString "conflict"))) (length (calls piState))
             namespace name data = inl out
         ∧ id (rd (mkState (rd piState) [CallPatch "default" "pi" "[]"]))
           = @buildId patchingHelpers (ObjectMeta out)).
Proof.
  assert (@resourceKubernetesJobUpdate patchingHelpers
            (patchConn (inr (ErrorString "conflict"))) piState
          = Returned (Some (ErrorString "conflict"),
                      mkState (rd piState) [CallPatch "default" "pi" "[]"])) as Hupd
    by reflexivity.
  split; [exact Hupd|].
  exact (@Update_changes_data_only_after_patch patchingHelpers _ piState _ _ Hupd).
Defined.

Lemma Update_success_runs_Read_witness :
  @resourceKubernetesJobUpdate patchingHelpers (patchConn (inl (exampleJob None))) piState
  = @resourceKubernetesJobRead patchingHelpers (patchConn (inl (exampleJob None)))
      (mkState (SetId (@buildId patchingHelpers (ObjectMeta (exampleJob None))) (rd piState))
               (calls piState ++ [CallPatch "default" "pi" "[]"])).
Proof.
  apply (@Update_success_runs_Read patchingHelpers (patchConn (inl (exampleJob None)))
           piState "default" "pi" "[]" [ReplaceOperation "/metadata/labels" VNil]);
    reflexivity.
Defined.

Lemma Update_remote_calls_witness :
  @resourceKubernetesJobUpdate patchingHelpers (patchConn (inr (ErrorString "conflict")))
    piState
  = Returned (Some (ErrorString "conflict"),
              mkState (rd piState) [CallPatch "default" "pi" "[]"])
  ∧ config (rd (mkState (rd piState) [CallPatch "default" "pi" "[]"])) = config (rd piState).
Proof.
  assert (@resourceKubernetesJobUpdate patchingHelpers
            (patchConn (inr (ErrorString "conflict"))) piState
          = Returned (Some (ErrorString "conflict"),
                      mkState (rd piState) [CallPatch "default" "pi" "[]"])) as Hupd
    by reflexivity.
  split; [exact Hupd|].
  exact (proj1 (@Update_remote_calls patchingHelpers _ piState _ _ Hupd)).
Defined.

Lemma Create_spec_error_witness :
  @resourceKubernetesJobCreate exampleHelpers
    (exampleCreateHelpers (inr (ErrorString "spec: malformed template")))
    goneConn echoCreate piState
  = Returned (Some (ErrorString "spec: malformed template"), piState).
Proof.
  apply (@Create_spec_error exampleHelpers
           (exampleCreateHelpers (inr (ErrorString "spec: malformed template")))
           goneConn echoCreate piState [] []); reflexivity.
Defined.

Lemma Create_after_remote_call_witness :
  @resourceKubernetesJobCreate exampleHelpers
    (exampleCreateHelpers (inl (mkJobSpec None None None None)))
    goneConn echoCreate piState
  = @resourceKubernetesJobRead exampleHelpers goneConn
      (mkState (SetId "pi" (rd piState)) (calls piState)).
Proof.
  apply (@Create_after_remote_call exampleHelpers
           (exampleCreateHelpers (inl (mkJobSpec None None None None)))
           goneConn echoCreate piState piState [] [] (mkJobSpec None None None None)
           (inl (mkJob (mkObjectMeta "pi" "default" ∅ ∅) (mkJobSpec None None None None))));
    reflexivity.
Defined.

End ExtrasExamples.
